(** * uiblib.js: message routing and teardown of a uibuilder endpoint

    A shallow embedding of [nodes/uiblib.js] and the properties of its
    functions [inputHandler], [processClose], [setNodeStatus], [urlJoin],
    [escapeRegExp], [getProps] and [sendControl]. *)

From Stdlib Require Import ZArith NArith String Ascii Lia.
From stdpp Require Import base option list strings gmap.

Set Warnings "-register-all".

(** ** JavaScript values *)

Module JS.

(** The values that occur as message fields, node settings and arguments.
    An object is the finite map of its own properties; numbers are the
    integers and NaN, enough for the truthiness tests of the module. *)
Inductive value : Type :=
| VUndefined
| VNull
| VBool (b : bool)
| VNum (n : Z)
| VNaN
| VStr (s : string)
| VArr (items : list value)
| VObj (props : gmap string value).

(** [typeof v] *)
Definition typeof (v : value) : string :=
  match v with
  | VUndefined => "undefined"
  | VNull => "object"
  | VBool _ => "boolean"
  | VNum _ | VNaN => "number"
  | VStr _ => "string"
  | VArr _ | VObj _ => "object"
  end.

(** ToBoolean: what [if (v)], [!v] and [v || w] test. *)
Definition truthy (v : value) : bool :=
  match v with
  | VUndefined | VNull | VNaN => false
  | VBool b => b
  | VNum n => negb (n =? 0)%Z
  | VStr s => negb (String.eqb s "")
  | VArr _ | VObj _ => true
  end.

(** [v !== true] *)
Definition not_strictly_true (v : value) : bool :=
  match v with
  | VBool true => false
  | _ => true
  end.

(** [a || b] *)
Definition or_else (a b : value) : value := if truthy a then a else b.

(** What a [throw] carries. *)
Inductive exn : Type :=
| ReferenceError (name : string)
| TypeError (what : string)
| SyntaxError (what : string)
| Raised (what : string).

(** The completion of a call: a normal return or a thrown exception. *)
Inductive Outcome (A : Type) : Type :=
| Ok (a : A)
| Throw (e : exn).
Arguments Ok {A} a.
Arguments Throw {A} e.

End JS.
Export JS.

(** ** Strings *)

Module Str.

(** [s.slice(0, n)] and [s.slice(n)] for [0 <= n]. *)
Fixpoint take (n : nat) (s : string) : string :=
  match n, s with
  | S n', String c s' => String c (take n' s')
  | _, _ => ""
  end.

Fixpoint drop (n : nat) (s : string) : string :=
  match n, s with
  | S n', String _ s' => drop n' s'
  | _, _ => s
  end.

(** Membership of a character in a set written as a string. *)
Fixpoint char_in (c : ascii) (set : string) : bool :=
  match set with
  | "" => false
  | String d set' => Ascii.eqb c d || char_in c set'
  end.

(** [strip_prefix p s] is [Some r] exactly when [s] is [p] followed by [r]. *)
Fixpoint strip_prefix (p s : string) : option string :=
  match p, s with
  | "", _ => Some s
  | String a p', String b s' => if Ascii.eqb a b then strip_prefix p' s' else None
  | String _ _, "" => None
  end.

(** The last character, dropped when it is [c]. *)
Fixpoint drop_last_if (c : ascii) (s : string) : string :=
  match s with
  | "" => ""
  | String a "" => if Ascii.eqb a c then "" else s
  | String a s' => String a (drop_last_if c s')
  end.

(** [s] without the characters [c] it starts with, and without those it
    ends with. *)
Fixpoint drop_leading (c : ascii) (s : string) : string :=
  match s with
  | "" => ""
  | String a s' => if Ascii.eqb a c then drop_leading c s' else s
  end.

Fixpoint drop_trailing (c : ascii) (s : string) : string :=
  match s with
  | "" => ""
  | String a s' =>
      match drop_trailing c s' with
      | "" => if Ascii.eqb a c then "" else String a ""
      | t => String a t
      end
  end.

(** [parts.join(sep)] *)
Fixpoint join (sep : string) (parts : list string) : string :=
  match parts with
  | [] => ""
  | [p] => p
  | p :: rest => p +:+ sep +:+ join sep rest
  end.

End Str.

(** ** Regular expressions

    The part of the pattern language that the patterns built by
    [processClose] use: the assertions [^] and [$], the wildcard [.],
    literal characters, escaped syntax characters and the greedy [*] on a
    one-character atom.  No flags are set: [^] and [$] are the ends of the
    input, [.] is any character but a line terminator, and a search starts
    at index 0. *)

Module RegExp.

Inductive atom : Type :=
| AChar (c : ascii)
| AAny.

Inductive term : Type :=
| TStart
| TEnd
| TOne (a : atom)
| TStar (a : atom).

Definition regex : Type := list term.

(** SyntaxCharacter of the pattern grammar. *)
Definition syntax_character (c : ascii) : bool := Str.char_in c "^$\.*+?()[]{}|".

(** Line feed and carriage return. *)
Definition line_terminator (c : ascii) : bool :=
  Ascii.eqb c "010"%char || Ascii.eqb c "013"%char.

(** The pattern parser, left to right; [acc] holds the terms read so far,
    last one first.  [None] stands for a SyntaxError, and for a pattern
    outside the part modelled here (groups, classes, alternation, the
    other quantifiers and the letter escapes). *)
Fixpoint parse (acc : list term) (p : string) : option regex :=
  match p with
  | "" => Some (rev acc)
  | String c p' =>
      if Ascii.eqb c "\"%char then
        match p' with
        | String e p'' =>
            if syntax_character e || Ascii.eqb e "/"%char
            then parse (TOne (AChar e) :: acc) p''
            else None
        | "" => None
        end
      else if Ascii.eqb c "^"%char then parse (TStart :: acc) p'
      else if Ascii.eqb c "$"%char then parse (TEnd :: acc) p'
      else if Ascii.eqb c "."%char then parse (TOne AAny :: acc) p'
      else if Ascii.eqb c "*"%char then
        match acc with
        | TOne a :: acc' => parse (TStar a :: acc') p'
        | _ => None
        end
      else if syntax_character c then None
      else parse (TOne (AChar c) :: acc) p'
  end.

(** [new RegExp(pattern)] *)
Definition RegExp (pattern : string) : option regex := parse [] pattern.

Definition atom_matches (a : atom) (c : ascii) : bool :=
  match a with
  | AChar d => Ascii.eqb d c
  | AAny => negb (line_terminator c)
  end.

(** The backtracking matcher.  [pos] is the index of the first character of
    [s] in the whole input; the result is the index where the match ends.
    A star takes as many characters as it can and gives them back one at a
    time until the rest of the pattern, [k], matches. *)
Fixpoint match_star (a : atom) (k : nat -> string -> option nat)
    (pos : nat) (s : string) : option nat :=
  match s with
  | String c s' =>
      if atom_matches a c then
        match match_star a k (S pos) s' with
        | Some e => Some e
        | None => k pos s
        end
      else k pos s
  | "" => k pos s
  end.

Fixpoint match_terms (ts : regex) (pos : nat) (s : string) : option nat :=
  match ts with
  | [] => Some pos
  | TStart :: ts' => if Nat.eqb pos 0 then match_terms ts' pos s else None
  | TEnd :: ts' =>
      match s with
      | "" => match_terms ts' pos s
      | String _ _ => None
      end
  | TOne a :: ts' =>
      match s with
      | String c s' => if atom_matches a c then match_terms ts' (S pos) s' else None
      | "" => None
      end
  | TStar a :: ts' => match_star a (match_terms ts') pos s
  end.

(** The leftmost match at or after [pos]: its start and end index. *)
Fixpoint exec_from (re : regex) (pos : nat) (s : string) : option (nat * nat) :=
  match match_terms re pos s with
  | Some e => Some (pos, e)
  | None =>
      match s with
      | String _ s' => exec_from re (S pos) s'
      | "" => None
      end
  end.

(** [re.exec(s)] *)
Definition exec (re : regex) (s : string) : option (nat * nat) := exec_from re 0 s.

(** [re.test(s)] *)
Definition test (re : regex) (s : string) : bool :=
  match exec re s with
  | Some _ => true
  | None => false
  end.

(** [s.replace(re, by)] for a replacement text without [$]: the first
    match is replaced, a string without a match is returned as it is. *)
Definition replace (s : string) (re : regex) (by_ : string) : string :=
  match exec re s with
  | Some (i, e) => Str.take i s +:+ by_ +:+ Str.drop e s
  | None => s
  end.

End RegExp.

(** ** The objects handed to the functions

    [node], [ioNs], [io], [app] and [log] are objects passed by reference;
    the functions read and update them and call their methods.  [World]
    holds their contents, and [trace] records the calls made on them, in
    order: emissions to the clients, outputs of the node, status reports,
    log lines, disconnects and the completion callback.

    A message is a plain, extensible object whose prototype is
    [Object.prototype]: the finite map of its own properties.  The values
    of properties hold no functions. *)

Module Model.

Abbreviation Msg := (gmap string value).

(** [msg.key], [undefined] for a missing property. *)
Definition prop (msg : Msg) (key : string) : value := default VUndefined (msg !! key).

(** [Object.prototype.hasOwnProperty] applied to [msg] and [key]. *)
Definition has_own (msg : Msg) (key : string) : bool := bool_decide (is_Some (msg !! key)).

Record IoChannels : Type := { control : string; server : string }.

(** [rcvMsgCount] is a count of messages: a double that holds a
    non-negative integer. *)
Record Node : Type := {
  url : string;
  rcvMsgCount : N;
  allowScripts : value;
  allowStyles : value;
  fwdInMessages : value;
  topic : string;
  ioChannels : IoChannels;
  ioNamespace : string }.

(** What a call to a method of a collaborator does. *)
Inductive Behaviour : Type :=
| Returns
| Throws (e : exn).

(** A connected client: [socket.disconnect()]. *)
Record Socket : Type := { disconnect : Behaviour }.

(** The Socket.IO namespace: [connected] maps the ids of the connected
    clients to their sockets, in the order [Object.keys] lists them;
    [listeners] are the events with a registered listener. *)
Record Namespace : Type := {
  connected : list (string * Socket);
  listeners : list string;
  removeAllListeners : Behaviour }.

(** An entry of [app._router.stack]: [r.regexp.toString()] and the handler. *)
Record Layer : Type := { regexp_toString : string; handle : string }.

Definition Callback : Type := string.

Inductive Event : Type :=
| Log (args : list value)
| Status (status : value)
| Emit (room : option value) (channel : string) (msg : Msg)
| Send (out : value)
| Disconnect (socketId : string)
| RemoveAllListeners
| Call (f : Callback).

Record World : Type := {
  node : Node;
  ioNs : Namespace;
  nsps : gset string;
  stack : list Layer;
  trace : list Event }.

Definition set_node (f : Node -> Node) (w : World) : World :=
  {| node := f (node w); ioNs := ioNs w; nsps := nsps w; stack := stack w; trace := trace w |}.
Definition set_ioNs (f : Namespace -> Namespace) (w : World) : World :=
  {| node := node w; ioNs := f (ioNs w); nsps := nsps w; stack := stack w; trace := trace w |}.
Definition set_nsps (f : gset string -> gset string) (w : World) : World :=
  {| node := node w; ioNs := ioNs w; nsps := f (nsps w); stack := stack w; trace := trace w |}.
Definition set_stack (f : list Layer -> list Layer) (w : World) : World :=
  {| node := node w; ioNs := ioNs w; nsps := nsps w; stack := f (stack w); trace := trace w |}.
Definition set_trace (f : list Event -> list Event) (w : World) : World :=
  {| node := node w; ioNs := ioNs w; nsps := nsps w; stack := stack w; trace := f (trace w) |}.

(** [n + 1] on a double that holds the integer [n]: exact below 2^53; from
    there on the doubles are two or more apart and the sum is rounded to
    the nearest of them, a tie to the one with the even significand.  At
    2^53 the sum is 2^53 again. *)
Definition js_succ (n : N) : N :=
  if (n <? 2 ^ 53)%N then (n + 1)%N
  else if (n <? 2 ^ 54)%N then (if N.even (n / 2) then n else n + 2)%N
  else n.

(** [node.rcvMsgCount++] *)
Definition incr_rcvMsgCount (n : Node) : Node :=
  {| url := url n; rcvMsgCount := js_succ (rcvMsgCount n); allowScripts := allowScripts n;
     allowStyles := allowStyles n; fwdInMessages := fwdInMessages n; topic := topic n;
     ioChannels := ioChannels n; ioNamespace := ioNamespace n |}.

(** [ioNs.removeAllListeners()], when it returns. *)
Definition clear_listeners (ns : Namespace) : Namespace :=
  {| connected := connected ns; listeners := []; removeAllListeners := removeAllListeners ns |}.

(** [socket.disconnect()], when it returns: the transport takes the socket
    out of [ioNs.connected]. *)
Definition remove_connected (socketId : string) (ns : Namespace) : Namespace :=
  {| connected := List.filter (fun entry => negb (String.eqb (fst entry) socketId)) (connected ns);
     listeners := listeners ns; removeAllListeners := removeAllListeners ns |}.

(** A computation on the world that returns or throws. *)
Definition M (A : Type) : Type := World -> Outcome A * World.

Definition ret {A} (a : A) : M A := fun w => (Ok a, w).
Definition throw {A} (e : exn) : M A := fun w => (Throw e, w).
Definition bind {A B} (m : M A) (k : A -> M B) : M B :=
  fun w =>
    match m w with
    | (Ok a, w') => k a w'
    | (Throw e, w') => (Throw e, w')
    end.
Definition gets {A} (f : World -> A) : M A := fun w => (Ok (f w), w).
Definition modify (f : World -> World) : M unit := fun w => (Ok tt, f w).

#[export] Instance M_ret : MRet M := @ret.
#[export] Instance M_bind : MBind M := fun A B k m => bind m k.

(** A call recorded in the trace. *)
Definition emit (ev : Event) : M unit := modify (set_trace (fun t => t ++ [ev])).

(** A call of a collaborator's method. *)
Definition behave (b : Behaviour) : M unit :=
  match b with
  | Returns => ret tt
  | Throws e => throw e
  end.

(** [items.forEach(f)] *)
Fixpoint forEach {A} (f : A -> M unit) (items : list A) : M unit :=
  match items with
  | [] => ret tt
  | x :: rest => f x;; forEach f rest
  end.

(** [Object.keys(o)] and [o[key]] *)
Definition Object_keys {A} (o : list (string * A)) : list string := map fst o.
Fixpoint Object_get {A} (o : list (string * A)) (key : string) : option A :=
  match o with
  | [] => None
  | (k, v) :: rest => if String.eqb k key then Some v else Object_get rest key
  end.

(** [msg.hasOwnProperty(key)]: the method is read from the message itself.
    The name reaches [Object.prototype.hasOwnProperty] unless the message
    has an own property called [hasOwnProperty]; that one shadows the
    method, holds no function, and calling it throws a TypeError. *)
Definition hasOwnProperty (msg : Msg) (key : string) : M bool :=
  match msg !! "hasOwnProperty" with
  | Some _ => throw (TypeError "msg.hasOwnProperty is not a function")
  | None => ret (has_own msg key)
  end.

(** A name that no scope binds.  [uiblib.js] is in strict mode and declares
    no variable and no function: its functions are properties of the
    object assigned to [module.exports], which gives their names no
    binding, and the global object has no [setNodeStatus], [sendControl],
    [escapeRegExp] or [urlJoin].  Reading such a name, as the call
    [name(...)] does before it looks at its arguments, throws a
    ReferenceError. *)
Definition unbound {A} (name : string) : M A := throw (ReferenceError name).

End Model.
Export Model.

(** ** nodes/uiblib.js *)

Module uiblib.

(** [inputHandler(msg, node, RED, io, ioNs, log)]: the message returned, or
    [None] for [null].  [msg] is updated in place; the message returned,
    emitted and sent on is the updated one. *)
Definition inputHandler (msg : Msg) : M (option Msg) :=
  modify (set_node incr_rcvMsgCount);;
  isControl ← hasOwnProperty msg "uibuilderCtrl";
  if (isControl : bool) then mret None
  else
    n ← gets node;
    msg ← (if not_strictly_true (allowScripts n)
           then hasScript ← hasOwnProperty msg "script";
                mret (if (hasScript : bool) then delete "script" msg else msg)
           else mret msg);
    msg ← (if not_strictly_true (allowStyles n)
           then hasStyle ← hasOwnProperty msg "style";
                mret (if (hasStyle : bool) then delete "style" msg else msg)
           else mret msg);
    (if truthy (prop msg "_socketId")
     then emit (Emit (Some (prop msg "_socketId")) (server (ioChannels n)) msg)
     else emit (Emit None (server (ioChannels n)) msg));;
    emit (Log [VStr "uibuilder - msg sent to front-end via ws channel, ";
               VStr (server (ioChannels n)); VStr ": "; VObj msg]);;
    (if truthy (fwdInMessages n)
     then emit (Send (VObj msg));;
          emit (Log [VStr "uibuilder - msg passed downstream to next node: "; VObj msg])
     else mret tt);;
    mret (Some msg).

(** [setNodeStatus(status, node)] *)
Definition setNodeStatus (status : value) : M unit :=
  let status :=
    if negb (String.eqb (typeof status) "object")
    then VObj {[ "fill" := VStr "grey"; "shape" := VStr "ring"; "text" := status ]}
    else status in
  emit (Status status).

(** [trimSlashes(str)]: a global [replace] by the empty text of the two
    alternatives "any run of slashes at the start" and "any run of
    slashes at the end"; the run of slashes at the front is removed, and
    the run at the end of what is left. *)
Definition trimSlashes (str : string) : string :=
  Str.drop_trailing "/"%char (Str.drop_leading "/"%char str).

(** [e.replace(/^\/|\/$/g, '')]: one slash is removed from the front, and
    one from the end of what is left. *)
Definition strip_slash (e : string) : string :=
  Str.drop_last_if "/"%char
    match e with
    | String c e' => if Ascii.eqb c "/"%char then e' else e
    | "" => e
    end.

(** [urlJoin(...paths)] *)
Definition urlJoin (paths : list string) : string :=
  "/" +:+ Str.join "/"
    (filter (fun e => e ≠ "") (map strip_slash paths)).

(** The characters of the class [[.*+?^${}()|[\]\\]]. *)
Definition escaped_character (c : ascii) : bool := Str.char_in c ".*+?^${}()|[]\".

(** [escapeRegExp(string)]: [string.replace(/[.*+?^${}()|[\]\\]/g, '\\$&')],
    every character of the class gets a backslash in front. *)
Fixpoint escapeRegExp (s : string) : string :=
  match s with
  | "" => ""
  | String c s' =>
      if escaped_character c
      then String "\"%char (String c (escapeRegExp s'))
      else String c (escapeRegExp s')
  end.

Section getProps.

(** [RED.util.getMessageProperty(myObj, prop)] of the Node-RED runtime; it
    throws when an intermediate property does not exist. *)
Variable getMessageProperty : value -> value -> Outcome value.

(** The [for] loop: [ans] is assigned by each lookup that returns, and the
    loop ends at the first one that is not [undefined]. *)
Fixpoint getProps_loop (myObj : value) (ans : value) (props : list value) : value :=
  match props with
  | [] => ans
  | p :: rest =>
      match getMessageProperty myObj p with
      | Ok v =>
          if negb (String.eqb (typeof v) "undefined") then v
          else getProps_loop myObj v rest
      | Throw _ => getProps_loop myObj ans rest
      end
  end.

(** [getProps(RED, myObj, props, defaultAnswer = [])] *)
Definition getProps (myObj props defaultAnswer : value) : value :=
  let defaultAnswer :=
    match defaultAnswer with
    | VUndefined => VArr []
    | _ => defaultAnswer
    end in
  let props :=
    if String.eqb (typeof props) "string" then VArr [props] else props in
  match props with
  | VArr props => or_else (getProps_loop myObj VUndefined props) defaultAnswer
  | _ => VUndefined
  end.

End getProps.

(** [sendControl(msg, ioNs, node, socketId)]; [socketId] is [undefined]
    when the argument is left out.  [msg] is updated in place: the result
    is the message as the call leaves it. *)
Definition sendControl (msg : Msg) (socketId : value) : M Msg :=
  let msg := if truthy socketId then <["_socketId" := socketId]> msg else msg in
  n ← gets node;
  (if truthy (prop msg "_socketId")
   then emit (Emit (Some (prop msg "_socketId")) (control (ioChannels n)) msg)
   else emit (Emit None (control (ioChannels n)) msg));;
  hasTopic ← hasOwnProperty msg "topic";
  let msg :=
    if negb (hasTopic : bool) && negb (String.eqb (topic n) "")
    then <["topic" := VStr (topic n)]> msg
    else msg in
  emit (Send (VArr [VNull; VObj msg]));;
  mret msg.

(** The indices pushed on [removePath] by the [forEach] over the stack,
    from index [i] on. *)
Fixpoint removePath_from (urlRe : RegExp.regex) (i : nat) (stack : list Layer) : list nat :=
  match stack with
  | [] => []
  | r :: rest =>
      let rUrl := RegExp.replace (regexp_toString r) urlRe "" in
      if String.eqb rUrl ""
      then i :: removePath_from urlRe (S i) rest
      else removePath_from urlRe (S i) rest
  end.

(** The [for] loop from the last index of [removePath] down to 0, given
    the indices last one first: [stack.splice(removePath[i], 1)]. *)
Fixpoint splice_each (indices : list nat) (stack : list Layer) : list Layer :=
  match indices with
  | [] => stack
  | i :: rest => splice_each rest (delete i stack)
  end.

(** Lines 86 to 100 of [processClose], the pruning of [app._router.stack].
    [escapeRegExp] and [urlJoin] are written as bare names. *)
Definition processClose_removePaths : M unit :=
  n ← gets node;
  escapeRegExp ← @unbound (string -> string) "escapeRegExp";
  urlJoin ← @unbound (list string -> string) "urlJoin";
  match RegExp.RegExp ("^" +:+ escapeRegExp ("/^\" +:+ urlJoin [url n]) +:+ ".*$") with
  | None => throw (SyntaxError "Invalid regular expression")
  | Some urlRe =>
      app_router_stack ← gets stack;
      let removePath := removePath_from urlRe 0 app_router_stack in
      modify (set_stack (splice_each (rev removePath)))
  end.

(** The function handed to [forEach] in [processClose]:
    [socketId => { ioNs.connected[socketId].disconnect() }] *)
Definition disconnectSocket (socketId : string) : M unit :=
  ns ← gets ioNs;
  match Object_get (connected ns) socketId with
  | Some socket =>
      emit (Disconnect socketId);;
      behave (disconnect socket);;
      modify (set_ioNs (remove_connected socketId))
  | None => throw (TypeError "Cannot read property 'disconnect' of undefined")
  end.

(** [processClose(done = null, node, RED, ioNs, io, app, log)].
    [setNodeStatus] and [sendControl] are written as bare names. *)
Definition processClose (done : option Callback) : M unit :=
  n ← gets node;
  emit (Log [VStr "uibuilder:nodeGo:on-close:processClose"; VStr (url n)]);;
  setNodeStatus ← @unbound (value -> M unit) "setNodeStatus";
  setNodeStatus (VObj {[ "fill" := VStr "red"; "shape" := VStr "ring"; "text" := VStr "CLOSED" ]});;
  sendControl ← @unbound (Msg -> value -> M Msg) "sendControl";
  sendControl {[ "uibuilderCtrl" := VStr "shutdown"; "from" := VStr "server" ]} VUndefined;;
  ns ← gets ioNs;
  let connectedNameSpaceSockets := Object_keys (connected ns) in
  (if 0 <? length connectedNameSpaceSockets
   then forEach disconnectSocket connectedNameSpaceSockets
   else mret tt);;
  ns ← gets ioNs;
  emit RemoveAllListeners;;
  behave (removeAllListeners ns);;
  modify (set_ioNs clear_listeners);;
  modify (set_nsps (fun t => t ∖ {[ ioNamespace n ]}));;
  processClose_removePaths;;
  match done with
  | Some f => emit (Call f)
  | None => mret tt
  end.

End uiblib.
Import uiblib.

(** ** Specification-side definitions *)

(** The pattern terms of a text taken literally, one per character. *)
Fixpoint literal (s : string) : RegExp.regex :=
  match s with
  | "" => []
  | String c s' => RegExp.TOne (RegExp.AChar c) :: literal s'
  end.

(** No character of [s] is a line terminator. *)
Fixpoint single_line (s : string) : bool :=
  match s with
  | "" => true
  | String c s' => negb (RegExp.line_terminator c) && single_line s'
  end.

(** The world with [evs] added to the end of the trace. *)
Definition add_trace (evs : list Event) (w : World) : World :=
  set_trace (fun t => t ++ evs) w.

(** The emissions to clients among [evs]: the room ([None] for the whole
    namespace), the channel and the message. *)
Fixpoint emitted (evs : list Event) : list (option value * string * Msg) :=
  match evs with
  | [] => []
  | Emit room channel msg :: rest => (room, channel, msg) :: emitted rest
  | _ :: rest => emitted rest
  end.

(** The outputs of the node among [evs]. *)
Fixpoint sent (evs : list Event) : list value :=
  match evs with
  | [] => []
  | Send out :: rest => out :: sent rest
  | _ :: rest => sent rest
  end.

(** The callbacks called among [evs]. *)
Fixpoint called (evs : list Event) : list Callback :=
  match evs with
  | [] => []
  | Call f :: rest => f :: called rest
  | _ :: rest => called rest
  end.

(** The ids of the sockets disconnected among [evs], in order. *)
Fixpoint disconnected (evs : list Event) : list string :=
  match evs with
  | [] => []
  | Disconnect id :: rest => id :: disconnected rest
  | _ :: rest => disconnected rest
  end.

(** The status reports among [evs]. *)
Fixpoint reported (evs : list Event) : list value :=
  match evs with
  | [] => []
  | Status status :: rest => status :: reported rest
  | _ :: rest => reported rest
  end.

(** The message [processClose] is written to tell the clients. *)
Definition shutdown : Msg :=
  {[ "uibuilderCtrl" := VStr "shutdown"; "from" := VStr "server" ]}.

(** The message [inputHandler] passes on: [script] deleted unless
    [allowScripts] is [true], [style] deleted unless [allowStyles] is. *)
Definition passed_on (n : Node) (msg : Msg) : Msg :=
  let msg1 := if not_strictly_true (allowScripts n) then delete "script" msg else msg in
  if not_strictly_true (allowStyles n) then delete "style" msg1 else msg1.

(** The exception of a call of [msg.hasOwnProperty] on a message that has
    an own property of that name. *)
Definition shadowed_method : exn := TypeError "msg.hasOwnProperty is not a function".

(** ** Sample objects *)

(** An entry of the route registry with the text [r.regexp.toString()]
    gives for it. *)
Definition entry (pattern : string) (path : string) : Layer :=
  {| regexp_toString := pattern; handle := path |}.

(** A node mounted on [url] that strips scripts and styles, forwards its
    input and has no default topic. *)
Definition sample_node (url : string) : Node :=
  {| url := url; rcvMsgCount := 0;
     allowScripts := VBool false; allowStyles := VBool false;
     fwdInMessages := VBool true; topic := "";
     ioChannels := {| control := "uiBuilderControl"; server := "uiBuilder" |};
     ioNamespace := url |}.

Definition sample_world (url : string) (sockets : list (string * Socket))
    (routes : list Layer) : World :=
  {| node := sample_node url;
     ioNs := {| connected := sockets; listeners := ["connection"];
                removeAllListeners := Returns |};
     nsps := {[ "/"; url ]};
     stack := routes;
     trace := [] |}.

(** The registry of the example: the entries the routing framework holds
    for handlers mounted on [/a], [/a/b] and [/c]. *)
Definition routes_a_ab_c : list Layer :=
  [ entry "/^\/a\/?(?=\/|$)/i" "/a";
    entry "/^\/a\/b\/?(?=\/|$)/i" "/a/b";
    entry "/^\/c\/?(?=\/|$)/i" "/c" ].

(** Two connected clients; the first one's [disconnect] throws. *)
Definition failing_sockets : list (string * Socket) :=
  [ ("s1", {| disconnect := Throws (Raised "socket error") |});
    ("s2", {| disconnect := Returns |}) ].

Definition quiet_sockets : list (string * Socket) :=
  [ ("s1", {| disconnect := Returns |}); ("s2", {| disconnect := Returns |}) ].

(** The lookup of one own property by name, which is what
    [RED.util.getMessageProperty] does for a name without dots; reading a
    property of [undefined] or [null] throws. *)
Definition own_property (obj key : value) : Outcome value :=
  match obj, key with
  | VUndefined, _ | VNull, _ => Throw (TypeError "Cannot read property of undefined")
  | VObj o, VStr k => Ok (prop o k)
  | _, _ => Ok VUndefined
  end.

(** The value of the first path whose lookup gives a value other than
    [undefined]; a lookup that throws counts as a miss. *)
Fixpoint first_defined (getMessageProperty : value -> value -> Outcome value)
    (myObj : value) (props : list value) : option value :=
  match props with
  | [] => None
  | p :: rest =>
      match getMessageProperty myObj p with
      | Ok VUndefined | Throw _ => first_defined getMessageProperty myObj rest
      | Ok v => Some v
      end
  end.

(** ** Strings and regular expressions: facts *)

Section StringFacts.

Lemma append_nil (s : string) : "" +:+ s = s.
Proof. reflexivity. Qed.

Lemma append_cons (c : ascii) (s t : string) : String c s +:+ t = String c (s +:+ t).
Proof. reflexivity. Qed.

Lemma append_empty_r (s : string) : s +:+ "" = s.
Proof.
  induction s as [|c s IH]; [reflexivity|].
  now rewrite append_cons, IH.
Qed.

Lemma append_assoc (a b c : string) : (a +:+ b) +:+ c = a +:+ (b +:+ c).
Proof.
  induction a as [|x a IH]; [reflexivity|].
  now rewrite !append_cons, IH.
Qed.

Lemma length_append (a b : string) :
  String.length (a +:+ b) = String.length a + String.length b.
Proof.
  induction a as [|x a IH]; [reflexivity|].
  rewrite append_cons. simpl. now rewrite IH.
Qed.

Lemma strip_prefix_append (p r : string) : Str.strip_prefix p (p +:+ r) = Some r.
Proof.
  induction p as [|c p IH]; [reflexivity|].
  rewrite append_cons. simpl. now rewrite Ascii.eqb_refl.
Qed.

Lemma strip_prefix_Some (p s r : string) :
  Str.strip_prefix p s = Some r <-> s = p +:+ r.
Proof.
  split.
  - revert s. induction p as [|c p IH]; intros s H; simpl in *.
    + rewrite append_nil. congruence.
    + destruct s as [|d s]; [discriminate|].
      destruct (Ascii.eqb_spec c d) as [->|]; [|discriminate].
      rewrite append_cons. f_equal. now apply IH.
  - intros ->. apply strip_prefix_append.
Qed.

Lemma drop_length (s : string) : Str.drop (String.length s) s = "".
Proof. induction s as [|c s IH]; simpl; auto. Qed.

End StringFacts.

Section RegExpFacts.

Import RegExp.

(** The class of [escapeRegExp] is the set of syntax characters. *)
Lemma escaped_is_syntax (c : ascii) : escaped_character c = syntax_character c.
Proof. destruct c as [[] [] [] [] [] [] [] []]; reflexivity. Qed.

(** A character as [escapeRegExp] writes it parses to that literal. *)
Lemma parse_escaped_character (c : ascii) (acc : list term) (rest : string) :
  parse acc (if escaped_character c then String "\"%char (String c rest) else String c rest)
  = parse (TOne (AChar c) :: acc) rest.
Proof. destruct c as [[] [] [] [] [] [] [] []]; reflexivity. Qed.

Lemma parse_escapeRegExp (s : string) (acc : list term) (rest : string) :
  parse acc (escapeRegExp s +:+ rest) = parse (rev (literal s) ++ acc) rest.
Proof.
  revert acc. induction s as [|c s IH]; intros acc; [reflexivity|].
  cbn [literal rev]. rewrite <- app_assoc. cbn [app]. rewrite <- IH.
  rewrite <- parse_escaped_character. cbn [escapeRegExp].
  destruct (escaped_character c); now rewrite !append_cons.
Qed.

(** Literal terms match exactly their text. *)
Lemma match_terms_literal (s : string) (ts : regex) (pos : nat) (t : string) :
  match_terms (literal s ++ ts) pos t =
  match Str.strip_prefix s t with
  | Some r => match_terms ts (pos + String.length s) r
  | None => None
  end.
Proof.
  revert pos t. induction s as [|c s IH]; intros pos t; simpl.
  - now rewrite Nat.add_0_r.
  - destruct t as [|d t]; [reflexivity|].
    destruct (Ascii.eqb c d); [|reflexivity].
    rewrite IH. now replace (S pos + String.length s) with (pos + S (String.length s)) by lia.
Qed.

(** A pattern that starts with [^] matches at index 0 only. *)
Lemma exec_from_anchored (ts : regex) (pos : nat) (s : string) :
  exec_from (TStart :: ts) (S pos) s = None.
Proof.
  revert pos. induction s as [|c s IH]; intros pos; simpl; [reflexivity|apply IH].
Qed.

Lemma exec_anchored (ts : regex) (s : string) :
  exec (TStart :: ts) s =
  match match_terms ts 0 s with
  | Some e => Some (0, e)
  | None => None
  end.
Proof.
  unfold exec. destruct s as [|c s]; simpl.
  - now destruct (match_terms ts 0 "").
  - destruct (match_terms ts 0 (String c s)); [reflexivity|apply exec_from_anchored].
Qed.

(** [.*$] takes the rest of a one-line text and fails on any other. *)
Lemma match_star_any_end (pos : nat) (s : string) :
  match_star AAny (match_terms [TEnd]) pos s =
  if single_line s then Some (pos + String.length s) else None.
Proof.
  revert pos. induction s as [|c s IH]; intros pos; simpl.
  - now rewrite Nat.add_0_r.
  - destruct (line_terminator c); simpl; [reflexivity|].
    rewrite IH. destruct (single_line s); [|reflexivity].
    f_equal. lia.
Qed.

End RegExpFacts.

Section PatternFacts.

Import RegExp.

Lemma RegExp_escaped_anchored (s : string) :
  RegExp ("^" +:+ escapeRegExp s +:+ "$") = Some (TStart :: literal s ++ [TEnd]).
Proof.
  unfold RegExp. rewrite append_cons, append_nil.
  change (parse [] (String "^" (escapeRegExp s +:+ "$")))
    with (parse [TStart] (escapeRegExp s +:+ "$")).
  rewrite parse_escapeRegExp. cbn [parse Ascii.eqb Bool.eqb].
  cbn. rewrite rev_app_distr, rev_involutive. reflexivity.
Qed.

Lemma test_escaped_anchored (s t : string) :
  test (TStart :: literal s ++ [TEnd]) t = true <-> t = s.
Proof.
  unfold test. rewrite exec_anchored, match_terms_literal.
  destruct (Str.strip_prefix s t) as [r|] eqn:E.
  - apply strip_prefix_Some in E. subst t.
    destruct r as [|c r]; simpl.
    + rewrite append_empty_r. tauto.
    + split; [discriminate|]. intros H.
      apply (f_equal String.length) in H. rewrite length_append in H.
      simpl in H. lia.
  - split; [discriminate|]. intros ->.
    pose proof (strip_prefix_append s "") as H.
    rewrite append_empty_r in H. congruence.
Qed.

(** The pattern [processClose] builds for a prefix [p]. *)
Lemma RegExp_escaped_prefix (p : string) :
  RegExp ("^" +:+ escapeRegExp p +:+ ".*$")
  = Some (TStart :: literal p ++ [TStar AAny; TEnd]).
Proof.
  unfold RegExp. rewrite append_cons, append_nil.
  change (parse [] (String "^" (escapeRegExp p +:+ ".*$")))
    with (parse [TStart] (escapeRegExp p +:+ ".*$")).
  rewrite parse_escapeRegExp. cbn.
  rewrite rev_app_distr, rev_involutive. cbn.
  now rewrite <- !app_assoc.
Qed.

Lemma single_line_false_nonempty (p r : string) :
  single_line r = false -> String.eqb (p +:+ r) "" = false.
Proof.
  intros H. apply String.eqb_neq. intros E.
  apply (f_equal String.length) in E. rewrite length_append in E.
  destruct r; [discriminate|]. simpl in E. lia.
Qed.

(** An entry is pushed on [removePath] exactly when its pattern starts
    with the prefix and stays on one line, or is empty. *)
Lemma replace_prefix_empty (p s : string) :
  String.eqb (replace s (TStart :: literal p ++ [TStar AAny; TEnd]) "") ""
  = match Str.strip_prefix p s with
    | Some rest => single_line rest
    | None => String.eqb s ""
    end.
Proof.
  unfold replace. rewrite exec_anchored, match_terms_literal.
  destruct (Str.strip_prefix p s) as [r|] eqn:E; [|reflexivity].
  apply strip_prefix_Some in E. subst s.
  cbn [match_terms]. rewrite match_star_any_end.
  destruct (single_line r) eqn:L.
  - cbn [Str.take]. rewrite !append_nil, Nat.add_0_l, <- length_append.
    now rewrite drop_length.
  - now apply single_line_false_nonempty.
Qed.

End PatternFacts.

Section SpliceFacts.

Lemma splice_each_app (xs ys : list nat) (st : list Layer) :
  splice_each (xs ++ ys) st = splice_each ys (splice_each xs st).
Proof. revert st. induction xs as [|x xs IH]; intros st; simpl; auto. Qed.

Lemma delete_middle (pre : list Layer) (r : Layer) (post : list Layer) :
  delete (length pre) (pre ++ r :: post) = pre ++ post.
Proof. induction pre as [|x pre IH]; simpl; [reflexivity|now rewrite IH]. Qed.

(** Splicing the collected indices, last one first, is filtering. *)
Lemma splice_each_removePath (urlRe : RegExp.regex) (pre l : list Layer) :
  splice_each (rev (removePath_from urlRe (length pre) l)) (pre ++ l)
  = pre ++ List.filter
             (fun r => negb (String.eqb (RegExp.replace (regexp_toString r) urlRe "") ""))
             l.
Proof.
  revert pre. induction l as [|r l IH]; intros pre; simpl; [reflexivity|].
  specialize (IH (pre ++ [r])).
  rewrite length_app, Nat.add_1_r, <- !app_assoc in IH. simpl in IH.
  destruct (String.eqb (RegExp.replace (regexp_toString r) urlRe "") ""); simpl.
  - rewrite splice_each_app, IH. simpl. apply delete_middle.
  - exact IH.
Qed.

End SpliceFacts.

Ltac run :=
  unfold emit, behave, unbound, mbind, M_bind, mret, M_ret, bind, ret, throw, gets, modify.

Section RunFacts.

Lemma add_trace_add_trace (a b : list Event) (w : World) :
  add_trace b (add_trace a w) = add_trace (a ++ b) w.
Proof. unfold add_trace, set_trace. simpl. now rewrite app_assoc. Qed.

Lemma add_trace_nil (w : World) : add_trace [] w = w.
Proof. destruct w. unfold add_trace, set_trace. simpl. now rewrite app_nil_r. Qed.


End RunFacts.

Section SegmentFacts.

Lemma single_line_append (a b : string) :
  single_line (a +:+ b) = single_line a && single_line b.
Proof.
  induction a as [|c a IH]; [reflexivity|].
  rewrite append_cons. cbn [single_line]. rewrite IH. now rewrite andb_assoc.
Qed.

Lemma drop_last_if_segment (seg : string) :
  Str.char_in "/"%char seg = false -> Str.drop_last_if "/"%char seg = seg.
Proof.
  induction seg as [|c seg IH]; [reflexivity|]. cbn [Str.char_in Str.drop_last_if].
  rewrite Ascii.eqb_sym. destruct (Ascii.eqb c "/"%char); [discriminate|].
  intros H. destruct seg; [reflexivity|]. now rewrite IH.
Qed.

(** A url of one segment is joined to a slash and the segment. *)
Lemma urlJoin_segment (seg : string) :
  seg <> "" -> Str.char_in "/"%char seg = false -> urlJoin [seg] = "/" +:+ seg.
Proof.
  intros Hne Hseg. unfold urlJoin, strip_slash. cbn [map].
  destruct seg as [|c seg]; [congruence|].
  cbn [Str.char_in] in Hseg. rewrite Ascii.eqb_sym in Hseg.
  destruct (Ascii.eqb c "/"%char) eqn:Hc; [discriminate|].
  rewrite drop_last_if_segment by (cbn [Str.char_in]; now rewrite Ascii.eqb_sym, Hc).
  rewrite filter_cons_True by discriminate. reflexivity.
Qed.

End SegmentFacts.

(** ** urlJoin and setNodeStatus on samples *)

Example urlJoin_samples :
  urlJoin ["/a"] = "/a" /\
  urlJoin ["a"] = "/a" /\
  urlJoin ["a/b/"; "//"; "/"; "c"] = "/a/b/c" /\
  urlJoin [""] = "/" /\
  strip_slash "///" = "/".
Proof. vm_compute. repeat split. Qed.

Example setNodeStatus_text :
  trace (snd (setNodeStatus (VStr "CLOSED") (sample_world "/a" quiet_sockets routes_a_ab_c)))
  = [Status (VObj {[ "fill" := VStr "grey"; "shape" := VStr "ring"; "text" := VStr "CLOSED" ]})].
Proof. vm_compute. reflexivity. Qed.

(** ** inputHandler *)

Section InputHandlerFacts.

Lemma mbind_returns {A B} (m : M A) (k : A -> M B) (w w' : World) (a : A) :
  m w = (Ok a, w') -> (m ≫= k) w = k a w'.
Proof. intros H. unfold mbind, M_bind, bind. now rewrite H. Qed.

Lemma mbind_throws {A B} (m : M A) (k : A -> M B) (w w' : World) (e : exn) :
  m w = (Throw e, w') -> (m ≫= k) w = (Throw e, w').
Proof. intros H. unfold mbind, M_bind, bind. now rewrite H. Qed.

Lemma has_own_true (msg : Msg) (key : string) :
  has_own msg key = true <-> is_Some (msg !! key).
Proof. unfold has_own. apply bool_decide_eq_true. Qed.

Lemma has_own_false (msg : Msg) (key : string) :
  has_own msg key = false <-> msg !! key = None.
Proof.
  unfold has_own. rewrite bool_decide_eq_false, eq_None_not_Some. reflexivity.
Qed.

(** [if (msg.hasOwnProperty(key)) delete msg[key]], when the call returns,
    is [delete msg[key]]. *)
Lemma delete_if_own (msg : Msg) (key : string) :
  (if has_own msg key then delete key msg else msg) = delete key msg.
Proof.
  destruct (has_own msg key) eqn:E; [reflexivity|].
  apply has_own_false in E. symmetry. now apply delete_id.
Qed.

Lemma hasOwnProperty_plain (msg : Msg) (key : string) (w : World) :
  msg !! "hasOwnProperty" = None -> hasOwnProperty msg key w = (Ok (has_own msg key), w).
Proof. intros H. unfold hasOwnProperty. now rewrite H. Qed.

Lemma hasOwnProperty_shadowed (msg : Msg) (key : string) (w : World) :
  is_Some (msg !! "hasOwnProperty") -> hasOwnProperty msg key w = (Throw shadowed_method, w).
Proof. intros [v H]. unfold hasOwnProperty. now rewrite H. Qed.

Lemma not_strictly_true_spec (v : value) :
  not_strictly_true v = true <-> v <> VBool true.
Proof.
  destruct v as [| |[]| | | | |]; cbn; split; intros H; congruence.
Qed.

Lemma passed_on_lookup (n : Node) (msg : Msg) (key : string) :
  passed_on n msg !! key =
  if (String.eqb key "script" && not_strictly_true (allowScripts n))
     || (String.eqb key "style" && not_strictly_true (allowStyles n))
  then None else msg !! key.
Proof.
  unfold passed_on.
  destruct (String.eqb_spec key "script") as [Hs|Hs];
    [subst key; change (String.eqb "script" "style") with false
    |destruct (String.eqb_spec key "style") as [Ht|Ht]; [subst key|]];
    destruct (not_strictly_true (allowScripts n)), (not_strictly_true (allowStyles n));
    cbn [andb orb];
    rewrite ?lookup_delete_eq, ?lookup_delete_ne by congruence;
    rewrite ?lookup_delete_eq; reflexivity.
Qed.

(** One sanitising step on a message without an own [hasOwnProperty]. *)
Lemma sanitise_step (check : bool) (msg : Msg) (key : string) (w : World) :
  msg !! "hasOwnProperty" = None ->
  (if check
   then own ← hasOwnProperty msg key;
        mret (if (own : bool) then delete key msg else msg)
   else mret msg) w
  = (Ok (if check then delete key msg else msg), w).
Proof.
  intros H. destruct check; [|reflexivity].
  rewrite (mbind_returns _ _ _ _ _ (hasOwnProperty_plain msg key w H)).
  now rewrite delete_if_own.
Qed.

(** A message with an own property [hasOwnProperty]: the first look at it,
    after the count, throws. *)
Lemma inputHandler_shadowed (msg : Msg) (w : World) :
  is_Some (msg !! "hasOwnProperty") ->
  inputHandler msg w = (Throw shadowed_method, set_node incr_rcvMsgCount w).
Proof.
  intros H. unfold inputHandler.
  rewrite (mbind_returns _ _ w (set_node incr_rcvMsgCount w) tt) by reflexivity.
  now rewrite (mbind_throws _ _ _ _ _ (hasOwnProperty_shadowed msg _ _ H)).
Qed.

(** A control message. *)
Lemma inputHandler_control (msg : Msg) (w : World) :
  msg !! "hasOwnProperty" = None ->
  is_Some (msg !! "uibuilderCtrl") ->
  inputHandler msg w = (Ok None, set_node incr_rcvMsgCount w).
Proof.
  intros H Hctrl. unfold inputHandler.
  rewrite (mbind_returns _ _ w (set_node incr_rcvMsgCount w) tt) by reflexivity.
  rewrite (mbind_returns _ _ _ _ _ (hasOwnProperty_plain msg _ _ H)).
  apply has_own_true in Hctrl. now rewrite Hctrl.
Qed.

(** The run of [inputHandler] on a data message, in full. *)
Lemma inputHandler_data_full (msg : Msg) (w : World) :
  msg !! "hasOwnProperty" = None ->
  msg !! "uibuilderCtrl" = None ->
  let out := passed_on (node w) msg in
  inputHandler msg w =
    (Ok (Some out),
     add_trace
       (Emit (if truthy (prop out "_socketId") then Some (prop out "_socketId") else None)
             (server (ioChannels (node w))) out
        :: Log [VStr "uibuilder - msg sent to front-end via ws channel, ";
                VStr (server (ioChannels (node w))); VStr ": "; VObj out]
        :: (if truthy (fwdInMessages (node w))
            then [Send (VObj out);
                  Log [VStr "uibuilder - msg passed downstream to next node: "; VObj out]]
            else []))
       (set_node incr_rcvMsgCount w)).
Proof.
  intros H Hdata out. unfold inputHandler.
  rewrite (mbind_returns _ _ w (set_node incr_rcvMsgCount w) tt) by reflexivity.
  rewrite (mbind_returns _ _ _ _ _ (hasOwnProperty_plain msg _ _ H)).
  apply has_own_false in Hdata. rewrite Hdata.
  set (w1 := set_node incr_rcvMsgCount w).
  rewrite (mbind_returns _ _ w1 w1 (node w1)) by reflexivity.
  rewrite (mbind_returns _ _ _ _ _ (sanitise_step _ msg "script" w1 H)).
  assert (H1 : (if not_strictly_true (allowScripts (node w1)) then delete "script" msg else msg)
               !! "hasOwnProperty" = None).
  { destruct (not_strictly_true _); [|exact H]. now rewrite lookup_delete_ne. }
  rewrite (mbind_returns _ _ _ _ _ (sanitise_step _ _ "style" w1 H1)).
  change (allowScripts (node w1)) with (allowScripts (node w)).
  change (allowStyles (node w1)) with (allowStyles (node w)).
  fold (passed_on (node w) msg). fold out.
  change (fwdInMessages (node w1)) with (fwdInMessages (node w)).
  change (ioChannels (node w1)) with (ioChannels (node w)).
  run.
  destruct (truthy (fwdInMessages (node w))), (truthy (prop out "_socketId"));
    unfold add_trace, set_trace, w1, set_node; cbn [node ioNs nsps stack trace];
    rewrite <- ?app_assoc; reflexivity.
Qed.

(** Whatever the message, [inputHandler] changes the world in the counter
    and the trace only. *)
Lemma inputHandler_frame (msg : Msg) (w : World) :
  exists r d,
    inputHandler msg w = (r, add_trace d (set_node incr_rcvMsgCount w)).
Proof.
  destruct (msg !! "hasOwnProperty") as [v|] eqn:H.
  - exists (Throw shadowed_method), [].
    rewrite add_trace_nil. apply inputHandler_shadowed. rewrite H. eauto.
  - destruct (msg !! "uibuilderCtrl") as [c|] eqn:Hctrl.
    + exists (Ok None), []. rewrite add_trace_nil.
      apply inputHandler_control; [exact H|]. rewrite Hctrl. eauto.
    + eexists. eexists. apply (inputHandler_data_full msg w H Hctrl).
Qed.

End InputHandlerFacts.

(** C3: a message that carries the control marker [uibuilderCtrl] and has
    an own property named [hasOwnProperty], such as
    [{uibuilderCtrl: 'x', hasOwnProperty: 1}], is not dropped with [null]:
    the counter is incremented, and the test for the marker, a call of
    [msg.hasOwnProperty], throws a TypeError to the caller.  Nothing is
    emitted or sent. *)
Theorem inputHandler_control_with_own_hasOwnProperty_throws
    (m : Msg) (c v : value) (w : World) :
  let msg : Msg := <["hasOwnProperty" := v]> (<["uibuilderCtrl" := c]> m) in
  msg !! "uibuilderCtrl" = Some c /\
  inputHandler msg w = (Throw shadowed_method, set_node incr_rcvMsgCount w) /\
  trace (snd (inputHandler msg w)) = trace w.
Proof.
  intros msg.
  assert (Hrun : inputHandler msg w = (Throw shadowed_method, set_node incr_rcvMsgCount w)).
  { apply inputHandler_shadowed. subst msg. rewrite lookup_insert_eq. eauto. }
  split; [|split; [exact Hrun|now rewrite Hrun]].
  subst msg. rewrite lookup_insert_ne by discriminate. apply lookup_insert_eq.
Qed.

(** The control message of the example and the one that throws. *)
Example inputHandler_control_samples :
  let w := sample_world "/a" quiet_sockets routes_a_ab_c in
  let shadowing : Msg := {[ "uibuilderCtrl" := VStr "x"; "hasOwnProperty" := VNum 1 ]} in
  inputHandler shutdown w = (Ok None, set_node incr_rcvMsgCount w) /\
  inputHandler shadowing w = (Throw shadowed_method, set_node incr_rcvMsgCount w) /\
  rcvMsgCount (node (set_node incr_rcvMsgCount w)) = 1%N.
Proof. vm_compute. repeat split. Qed.



(** The end-to-end example: the script is stripped, the rest goes to the
    clients on the data channel and to the output, the counter is 1. *)
Example inputHandler_end_to_end :
  let msg : Msg := {[ "script" := VStr "x"; "topic" := VStr "t"; "value" := VNum 1 ]} in
  let out : Msg := {[ "topic" := VStr "t"; "value" := VNum 1 ]} in
  exists w',
    inputHandler msg (sample_world "/a" quiet_sockets routes_a_ab_c) = (Ok (Some out), w') /\
    emitted (trace w') = [(None, "uiBuilder", out)] /\
    sent (trace w') = [VObj out] /\
    rcvMsgCount (node w') = 1%N.
Proof. eexists. vm_compute. repeat split. Qed.

(** C8, as stated, fails: a data message whose [_socketId] is the empty
    string is broadcast to the whole namespace. *)
Lemma inputHandler_empty_id_broadcasts :
  let msg : Msg := {[ "_socketId" := VStr ""; "payload" := VNum 1 ]} in
  msg !! "uibuilderCtrl" = None /\
  msg !! "_socketId" = Some (VStr "") /\
  exists w',
    inputHandler msg (sample_world "/a" quiet_sockets routes_a_ab_c) = (Ok (Some msg), w') /\
    emitted (trace w') = [(None, "uiBuilder", msg)].
Proof. intros msg. repeat split. eexists. vm_compute. split; reflexivity. Qed.

(** C8, amended: a data message without an own property [hasOwnProperty]
    whose [_socketId] is truthy (not [undefined], [null], [false], 0, NaN
    or the empty string) is emitted on the data channel to that client
    only, with no broadcast; such a message without [_socketId], or with a
    falsy one, is broadcast on the data channel to the whole namespace. *)
Theorem inputHandler_targets_truthy_id (msg : Msg) (w : World) :
  msg !! "uibuilderCtrl" = None ->
  msg !! "hasOwnProperty" = None ->
  exists out w' d,
    inputHandler msg w = (Ok (Some out), w') /\
    trace w' = trace w ++ d /\
    (forall C, msg !! "_socketId" = Some C -> truthy C = true ->
        emitted d = [(Some C, server (ioChannels (node w)), out)]) /\
    (msg !! "_socketId" = None ->
        emitted d = [(None, server (ioChannels (node w)), out)]) /\
    (forall C, msg !! "_socketId" = Some C -> truthy C = false ->
        emitted d = [(None, server (ioChannels (node w)), out)]).
Proof.
  intros Hdata H.
  eexists. eexists. eexists.
  split; [apply (inputHandler_data_full msg w H Hdata)|].
  split; [reflexivity|].
  set (out := passed_on (node w) msg).
  assert (Hid : prop out "_socketId" = prop msg "_socketId").
  { unfold prop. subst out. now rewrite passed_on_lookup. }
  rewrite Hid. unfold prop.
  split; [|split].
  - intros C -> HC. change (default VUndefined (Some C)) with C. rewrite HC.
    now destruct (truthy (fwdInMessages (node w))).
  - intros ->. change (default VUndefined None) with VUndefined. cbn [truthy].
    now destruct (truthy (fwdInMessages (node w))).
  - intros C -> HC. change (default VUndefined (Some C)) with C. rewrite HC.
    now destruct (truthy (fwdInMessages (node w))).
Qed.

Lemma inputHandler_targets_truthy_id_witness :
  let msg : Msg := {[ "_socketId" := VStr "/a#c1"; "payload" := VNum 1 ]} in
  let w := sample_world "/a" quiet_sockets routes_a_ab_c in
  msg !! "uibuilderCtrl" = None /\
  msg !! "hasOwnProperty" = None /\
  exists out w' d,
    inputHandler msg w = (Ok (Some out), w') /\
    trace w' = trace w ++ d /\
    (forall C, msg !! "_socketId" = Some C -> truthy C = true ->
        emitted d = [(Some C, server (ioChannels (node w)), out)]) /\
    (msg !! "_socketId" = None ->
        emitted d = [(None, server (ioChannels (node w)), out)]) /\
    (forall C, msg !! "_socketId" = Some C -> truthy C = false ->
        emitted d = [(None, server (ioChannels (node w)), out)]).
Proof.
  intros msg w. split; [reflexivity|]. split; [reflexivity|].
  apply (inputHandler_targets_truthy_id msg w); reflexivity.
Defined.

(** ** sendControl *)

Section SendControlFacts.

Lemma stamped_lookup (msg : Msg) (socketId : value) (key : string) :
  key <> "_socketId" ->
  (if truthy socketId then <["_socketId" := socketId]> msg else msg) !! key = msg !! key.
Proof. intros Hk. destruct (truthy socketId); [|reflexivity]. now rewrite lookup_insert_ne. Qed.

(** The run on a message without an own [hasOwnProperty]. *)
Lemma sendControl_run (msg : Msg) (socketId : value) (w : World) :
  msg !! "hasOwnProperty" = None ->
  let stamped := if truthy socketId then <["_socketId" := socketId]> msg else msg in
  let out :=
    if negb (has_own stamped "topic") && negb (String.eqb (topic (node w)) "")
    then <["topic" := VStr (topic (node w))]> stamped
    else stamped in
  sendControl msg socketId w =
    (Ok out,
     add_trace
       [ Emit (if truthy (prop stamped "_socketId") then Some (prop stamped "_socketId") else None)
              (control (ioChannels (node w))) stamped;
         Send (VArr [VNull; VObj out]) ] w).
Proof.
  intros H stamped out. unfold sendControl. fold stamped.
  assert (Hst : stamped !! "hasOwnProperty" = None)
    by (subst stamped; now rewrite stamped_lookup).
  rewrite (mbind_returns _ _ w w (node w)) by reflexivity.
  set (w1 := add_trace
               [Emit (if truthy (prop stamped "_socketId")
                      then Some (prop stamped "_socketId") else None)
                     (control (ioChannels (node w))) stamped] w).
  rewrite (mbind_returns _ _ w w1 tt) by (now destruct (truthy (prop stamped "_socketId"))).
  rewrite (mbind_returns _ _ _ _ _ (hasOwnProperty_plain stamped "topic" w1 Hst)).
  fold out. run. unfold w1, add_trace, set_trace. cbn [node ioNs nsps stack trace].
  now rewrite <- app_assoc.
Qed.

(** The run on a message with an own [hasOwnProperty]: the emission is
    made, the look for a topic throws, the output is not reached. *)
Lemma sendControl_shadowed (msg : Msg) (socketId : value) (w : World) :
  is_Some (msg !! "hasOwnProperty") ->
  let stamped := if truthy socketId then <["_socketId" := socketId]> msg else msg in
  sendControl msg socketId w =
    (Throw shadowed_method,
     add_trace
       [ Emit (if truthy (prop stamped "_socketId") then Some (prop stamped "_socketId") else None)
              (control (ioChannels (node w))) stamped ] w).
Proof.
  intros H stamped. unfold sendControl. fold stamped.
  assert (Hst : is_Some (stamped !! "hasOwnProperty"))
    by (subst stamped; now rewrite stamped_lookup).
  rewrite (mbind_returns _ _ w w (node w)) by reflexivity.
  set (w1 := add_trace _ w).
  rewrite (mbind_returns _ _ w w1 tt) by (now destruct (truthy (prop stamped "_socketId"))).
  now rewrite (mbind_throws _ _ _ _ _ (hasOwnProperty_shadowed stamped "topic" w1 Hst)).
Qed.

(** Whatever the message, the one emission is made, to the room
    [sendControl] reads from the message after stamping it. *)
Lemma sendControl_emits (msg : Msg) (socketId : value) (w : World) :
  let stamped := if truthy socketId then <["_socketId" := socketId]> msg else msg in
  exists r rest,
    sendControl msg socketId w =
      (r, add_trace
            (Emit (if truthy (prop stamped "_socketId") then Some (prop stamped "_socketId") else None)
                  (control (ioChannels (node w))) stamped :: rest) w)
    /\ emitted rest = []
    /\ (msg !! "hasOwnProperty" = None -> exists out, r = Ok out /\ rest = [Send (VArr [VNull; VObj out])])
    /\ (is_Some (msg !! "hasOwnProperty") -> r = Throw shadowed_method /\ rest = []).
Proof.
  intros stamped. destruct (msg !! "hasOwnProperty") as [v|] eqn:H.
  - eexists. exists []. split; [apply sendControl_shadowed; rewrite H; eauto|].
    split; [reflexivity|]. split; [discriminate|]. now intros _.
  - eexists. eexists. split; [apply (sendControl_run msg socketId w H)|].
    split; [reflexivity|]. split; [eauto|]. intros [? ?]. discriminate.
Qed.

End SendControlFacts.

(** C5: a call of [sendControl] with a message that has an own property
    named [hasOwnProperty], such as [{hasOwnProperty: 1}], makes no output
    of the node: the message is emitted to the clients, the look for a
    [topic], a call of [msg.hasOwnProperty], throws a TypeError to the
    caller, and [node.send] is not reached. *)
Theorem sendControl_with_own_hasOwnProperty_sends_nothing
    (m : Msg) (v socketId : value) (w : World) :
  let msg : Msg := <["hasOwnProperty" := v]> m in
  exists w' d room sentMsg,
    sendControl msg socketId w = (Throw shadowed_method, w') /\
    trace w' = trace w ++ d /\
    emitted d = [(room, control (ioChannels (node w)), sentMsg)] /\
    sent d = [].
Proof.
  intros msg.
  assert (H : is_Some (msg !! "hasOwnProperty"))
    by (subst msg; rewrite lookup_insert_eq; eauto).
  eexists. eexists. eexists. eexists.
  split; [apply (sendControl_shadowed msg socketId w H)|].
  split; [reflexivity|]. split; reflexivity.
Qed.

(** The shutdown notice on a node without a default topic: the second
    output holds the message as it was; with a default topic, the message
    on the output has it while the one emitted before does not.  A message
    with an own [hasOwnProperty] reaches the clients and no output. *)
Example sendControl_samples :
  let w := sample_world "/a" quiet_sockets routes_a_ab_c in
  let w_news := set_node (fun n =>
    {| url := url n; rcvMsgCount := rcvMsgCount n; allowScripts := allowScripts n;
       allowStyles := allowStyles n; fwdInMessages := fwdInMessages n; topic := "news";
       ioChannels := ioChannels n; ioNamespace := ioNamespace n |}) w in
  let shadowing : Msg := {[ "hasOwnProperty" := VNum 1 ]} in
  sent (trace (snd (sendControl shutdown VUndefined w))) = [VArr [VNull; VObj shutdown]] /\
  sent (trace (snd (sendControl shutdown VUndefined w_news)))
    = [VArr [VNull; VObj (<["topic" := VStr "news"]> shutdown)]] /\
  emitted (trace (snd (sendControl shutdown VUndefined w_news)))
    = [(None, "uiBuilderControl", shutdown)] /\
  sendControl shadowing VUndefined w
    = (Throw shadowed_method, add_trace [Emit None "uiBuilderControl" shadowing] w).
Proof. vm_compute. repeat split. Qed.

(** C10, as stated, fails: with no [socketId] argument and a message whose
    [_socketId] key holds [null], the control message is broadcast. *)
Lemma sendControl_null_id_broadcasts :
  let msg : Msg := {[ "uibuilderCtrl" := VStr "ready"; "_socketId" := VNull ]} in
  is_Some (msg !! "_socketId") /\
  exists out w',
    sendControl msg VUndefined (sample_world "/a" quiet_sockets routes_a_ab_c) = (Ok out, w') /\
    emitted (trace w') = [(None, "uiBuilderControl", msg)].
Proof. intros msg. split; [vm_compute; eauto|]. eexists. eexists. vm_compute. split; reflexivity. Qed.

(** C10, amended: with no (or a falsy) [socketId] argument and a message
    whose [_socketId] key holds a truthy value, the control message is
    emitted to that client only, with no broadcast; a truthy argument is
    the target whatever the message holds; the message is broadcast
    exactly when the argument is absent or falsy and the message has no
    truthy [_socketId].  The one emission is made whether or not the call
    returns; it returns when the message has no own property
    [hasOwnProperty]. *)
Theorem sendControl_targets_truthy_id (msg : Msg) (socketId : value) (w : World) :
  exists r w' d room sentMsg,
    sendControl msg socketId w = (r, w') /\
    trace w' = trace w ++ d /\
    emitted d = [(room, control (ioChannels (node w)), sentMsg)] /\
    (truthy socketId = true -> room = Some socketId) /\
    (forall C, truthy socketId = false -> msg !! "_socketId" = Some C -> truthy C = true ->
        room = Some C /\ sentMsg = msg) /\
    (room = None <->
       truthy socketId = false /\ truthy (prop msg "_socketId") = false) /\
    (msg !! "hasOwnProperty" = None -> exists out, r = Ok out).
Proof.
  destruct (sendControl_emits msg socketId w) as (r & rest & Hrun & Hrest & Hplain & _).
  exists r. eexists. eexists. eexists. eexists.
  split; [exact Hrun|]. split; [reflexivity|].
  split; [cbn [emitted]; now rewrite Hrest|].
  assert (Hret : msg !! "hasOwnProperty" = None -> exists out, r = Ok out).
  { intros H. destruct (Hplain H) as (out & -> & _). eauto. }
  destruct (truthy socketId) eqn:Harg.
  - assert (Hid : prop (<["_socketId" := socketId]> msg) "_socketId" = socketId).
    { unfold prop. now rewrite lookup_insert_eq. }
    rewrite Hid, Harg. split; [reflexivity|]. split; [discriminate|].
    split; [|exact Hret]. split; [discriminate|]. intros [? _]. discriminate.
  - split; [discriminate|]. split.
    + intros C _ HC Htruthy. unfold prop. rewrite HC.
      change (default VUndefined (Some C)) with C. now rewrite Htruthy.
    + split; [|exact Hret].
      destruct (truthy (prop msg "_socketId")); split; try tauto; try discriminate.
      intros [_ ?]. discriminate.
Qed.

(** ** processClose *)

(** C6: [processClose] sends no shutdown notice and never calls the
    completion callback.  Whatever the callback and the objects, the call
    logs its line and then reads the bare name [setNodeStatus], which
    nothing binds: a ReferenceError ends it there.  No status is reported,
    nothing is emitted to the clients or sent to an output, no client is
    disconnected and the callback is not called. *)
Theorem processClose_sends_no_notice_and_calls_no_callback
    (done : option Callback) (w : World) :
  exists w' d,
    processClose done w = (Throw (ReferenceError "setNodeStatus"), w') /\
    trace w' = trace w ++ d /\
    reported d = [] /\ emitted d = [] /\ sent d = [] /\
    disconnected d = [] /\ called d = [].
Proof.
  eexists. eexists. split; [reflexivity|].
  split; [reflexivity|]. repeat split.
Qed.


(** C1: [processClose] prunes nothing.  It ends before it reaches the
    route registry, which keeps every entry, the one of the node's own
    path included; and the pruning lines themselves start by reading the
    bare name [escapeRegExp], which nothing binds either. *)
Theorem processClose_prunes_nothing (done : option Callback) (w : World) :
  (exists e w', processClose done w = (Throw e, w') /\ stack w' = stack w) /\
  processClose_removePaths w = (Throw (ReferenceError "escapeRegExp"), w).
Proof.
  split; [|reflexivity].
  eexists. eexists. split; reflexivity.
Qed.

(** The teardown of the example: the node on [/a], entries for [/a],
    [/a/b] and [/c], two clients, a callback. *)
Example processClose_sample_run :
  let w := sample_world "/a" failing_sockets routes_a_ab_c in
  exists w',
    processClose (Some "done") w = (Throw (ReferenceError "setNodeStatus"), w') /\
    stack w' = routes_a_ab_c /\
    connected (ioNs w') = failing_sockets /\
    listeners (ioNs w') = ["connection"] /\
    nsps w' = nsps w /\
    trace w' = [Log [VStr "uibuilder:nodeGo:on-close:processClose"; VStr "/a"]].
Proof. eexists. repeat split. Qed.

(** ** getProps *)

Section GetPropsFacts.

Variable getMessageProperty : value -> value -> Outcome value.

Lemma typeof_undefined (v : value) :
  String.eqb (typeof v) "undefined" = true <-> v = VUndefined.
Proof. destruct v; cbn; split; intros H; congruence. Qed.

Lemma getProps_loop_first_defined (myObj : value) (props : list value) :
  getProps_loop getMessageProperty myObj VUndefined props
  = default VUndefined (first_defined getMessageProperty myObj props).
Proof.
  induction props as [|p props IH]; [reflexivity|]. cbn [getProps_loop first_defined].
  destruct (getMessageProperty myObj p) as [v|e]; [|exact IH].
  destruct v; try reflexivity. exact IH.
Qed.

(** What [getProps] returns for a list of paths: the first defined value
    when it is truthy, and otherwise the default, which is the empty
    array when the argument is [undefined].  It returns in every case. *)
Lemma getProps_first_truthy (myObj : value) (props : list value) (defaultAnswer : value) :
  getProps getMessageProperty myObj (VArr props) defaultAnswer =
  let fallback :=
    match defaultAnswer with
    | VUndefined => VArr []
    | _ => defaultAnswer
    end in
  match first_defined getMessageProperty myObj props with
  | Some v => if truthy v then v else fallback
  | None => fallback
  end.
Proof.
  unfold getProps. cbn [typeof String.eqb Ascii.eqb Bool.eqb].
  rewrite getProps_loop_first_defined. unfold or_else.
  destruct (first_defined getMessageProperty myObj props); reflexivity.
Qed.

(** A value that is found but falsy is lost. *)
Lemma getProps_found_falsy (myObj p v defaultAnswer : value) (rest : list value) :
  getMessageProperty myObj p = Ok v ->
  v <> VUndefined ->
  truthy v = false ->
  defaultAnswer <> VUndefined ->
  getProps getMessageProperty myObj (VArr (p :: rest)) defaultAnswer = defaultAnswer.
Proof.
  intros Hget Hdef Hfalsy Hd. rewrite getProps_first_truthy. cbn [first_defined].
  rewrite Hget. destruct v; try congruence; cbn zeta; rewrite ?Hfalsy;
    destruct defaultAnswer; congruence.
Qed.

End GetPropsFacts.

(** C4 at the object [{a: 0}]: the lookup of [a] gives the defined value 0,
    and [getProps] returns the default instead. *)
Theorem getProps_found_zero_gives_default :
  let myObj := VObj {[ "a" := VNum 0 ]} in
  own_property myObj (VStr "a") = Ok (VNum 0) /\
  getProps own_property myObj (VArr [VStr "a"]) (VStr "none") = VStr "none".
Proof. split; reflexivity. Qed.

(** ** escapeRegExp *)

(** C9: the pattern [^] + [escapeRegExp(s)] + [$] is a valid one, it is
    the text of [s] taken literally, character by character, between the
    two anchors, and it matches the string [s] and no other. *)
Theorem escapeRegExp_matches_itself (s : string) :
  exists re,
    RegExp.RegExp ("^" +:+ escapeRegExp s +:+ "$") = Some re /\
    re = RegExp.TStart :: literal s ++ [RegExp.TEnd] /\
    forall t, RegExp.test re t = true <-> t = s.
Proof.
  eexists. split; [apply RegExp_escaped_anchored|]. split; [reflexivity|].
  intros t. apply test_escaped_anchored.
Qed.

Example escapeRegExp_metacharacters :
  escapeRegExp ".*+?^${}()|[]\" = "\.\*\+\?\^\$\{\}\(\)\|\[\]\\"
  /\ RegExp.test (default [] (RegExp.RegExp ("^" +:+ escapeRegExp "a.c" +:+ "$"))) "a.c" = true
  /\ RegExp.test (default [] (RegExp.RegExp ("^" +:+ escapeRegExp "a.c" +:+ "$"))) "abc" = false
  /\ RegExp.test (default [] (RegExp.RegExp "^a.c$")) "abc" = true.
Proof. vm_compute. repeat split. Qed.

(** * Further properties of the module *)

(** ** trimSlashes *)

(** A run of [n] slashes. *)
Fixpoint slashes (n : nat) : string :=
  match n with
  | 0 => ""
  | S n' => String "/"%char (slashes n')
  end.

(** [s] starts with the character [c]; [s] ends with it. *)
Definition starts_with (c : ascii) (s : string) : bool :=
  match s with
  | "" => false
  | String a _ => Ascii.eqb a c
  end.

Fixpoint ends_with (c : ascii) (s : string) : bool :=
  match s with
  | "" => false
  | String a "" => Ascii.eqb a c
  | String _ s' => ends_with c s'
  end.

Section TrimFacts.

Lemma drop_leading_split (s : string) :
  exists n, s = slashes n +:+ Str.drop_leading "/"%char s.
Proof.
  induction s as [|a s [n IH]]; [now exists 0|]. cbn [Str.drop_leading].
  destruct (Ascii.eqb_spec a "/"%char) as [->|]; [|now exists 0].
  exists (S n). cbn [slashes]. now rewrite append_cons, <- IH.
Qed.

Lemma drop_leading_starts (s : string) :
  starts_with "/"%char (Str.drop_leading "/"%char s) = false.
Proof.
  induction s as [|a s IH]; [reflexivity|]. cbn [Str.drop_leading].
  destruct (Ascii.eqb a "/"%char) eqn:E; [exact IH|]. cbn [starts_with]. exact E.
Qed.

Lemma drop_trailing_split (s : string) :
  exists m, s = Str.drop_trailing "/"%char s +:+ slashes m.
Proof.
  induction s as [|a s [m IH]]; [now exists 0|]. cbn [Str.drop_trailing].
  destruct (Str.drop_trailing "/"%char s) as [|b t].
  - rewrite append_nil in IH. subst s.
    destruct (Ascii.eqb_spec a "/"%char) as [->|]; [now exists (S m)|].
    exists m. now rewrite append_cons, append_nil.
  - exists m. now rewrite append_cons, <- IH.
Qed.

Lemma drop_trailing_ends (s : string) :
  ends_with "/"%char (Str.drop_trailing "/"%char s) = false.
Proof.
  induction s as [|a s IH]; [reflexivity|]. cbn [Str.drop_trailing].
  destruct (Str.drop_trailing "/"%char s) as [|b t].
  - destruct (Ascii.eqb a "/"%char) eqn:E; [reflexivity|]. cbn [ends_with]. exact E.
  - exact IH.
Qed.

Lemma drop_trailing_starts (s : string) :
  starts_with "/"%char s = false ->
  starts_with "/"%char (Str.drop_trailing "/"%char s) = false.
Proof.
  destruct s as [|a s]; [reflexivity|]. cbn [starts_with Str.drop_trailing]. intros E.
  destruct (Str.drop_trailing "/"%char s); [now rewrite E|exact E].
Qed.

Lemma drop_leading_id (s : string) :
  starts_with "/"%char s = false -> Str.drop_leading "/"%char s = s.
Proof. destruct s as [|a s]; [reflexivity|]. cbn. now intros ->. Qed.

Lemma drop_trailing_id (s : string) :
  ends_with "/"%char s = false -> Str.drop_trailing "/"%char s = s.
Proof.
  induction s as [|a s IH]; [reflexivity|]. cbn [Str.drop_trailing].
  destruct s as [|b t].
  - cbn. now intros ->.
  - intros E. rewrite IH by exact E. reflexivity.
Qed.

Lemma trimSlashes_ends (s : string) :
  starts_with "/"%char (trimSlashes s) = false
  /\ ends_with "/"%char (trimSlashes s) = false.
Proof.
  unfold trimSlashes. split.
  - apply drop_trailing_starts, drop_leading_starts.
  - apply drop_trailing_ends.
Qed.

Lemma trimSlashes_fixed (s : string) :
  starts_with "/"%char s = false -> ends_with "/"%char s = false -> trimSlashes s = s.
Proof.
  intros Hs He. unfold trimSlashes. now rewrite drop_leading_id, drop_trailing_id.
Qed.

End TrimFacts.

(** X1: [trimSlashes] removes slashes only, and only at the two ends: the
    input is the result between two runs of slashes, and the result
    neither starts nor ends with a slash. *)
Theorem trimSlashes_strips_both_ends (s : string) :
  (exists n m, s = slashes n +:+ trimSlashes s +:+ slashes m)
  /\ starts_with "/"%char (trimSlashes s) = false
  /\ ends_with "/"%char (trimSlashes s) = false.
Proof.
  split; [|apply trimSlashes_ends].
  unfold trimSlashes.
  destruct (drop_leading_split s) as [n Hn].
  destruct (drop_trailing_split (Str.drop_leading "/"%char s)) as [m Hm].
  exists n, m. now rewrite <- Hm, <- Hn.
Qed.

(** X2: [trimSlashes] applied twice is [trimSlashes] applied once, and a text
    with no slash at either end is returned as it is. *)
Theorem trimSlashes_idempotent (s : string) :
  trimSlashes (trimSlashes s) = trimSlashes s
  /\ (starts_with "/"%char s = false -> ends_with "/"%char s = false -> trimSlashes s = s).
Proof.
  split; [|apply trimSlashes_fixed].
  destruct (trimSlashes_ends s) as [Hs He]. now apply trimSlashes_fixed.
Qed.

Example trimSlashes_samples :
  trimSlashes "//a/b//" = "a/b" /\ trimSlashes "///" = "" /\ trimSlashes "" = ""
  /\ trimSlashes "a" = "a" /\ strip_slash "//a/b//" = "/a/b/".
Proof. vm_compute. repeat split. Qed.

(** ** urlJoin *)

(** A path segment: not empty and without a slash. *)
Definition is_segment (seg : string) : bool :=
  negb (String.eqb seg "") && negb (Str.char_in "/"%char seg).

(** [part] is [seg], possibly with one slash in front, one behind, or both. *)
Definition dressed (seg part : string) : Prop :=
  part = seg \/ part = "/" +:+ seg \/ part = seg +:+ "/" \/ part = "/" +:+ seg +:+ "/".

Section UrlJoinFacts.

Lemma is_segment_spec (seg : string) :
  is_segment seg = true <-> seg <> "" /\ Str.char_in "/"%char seg = false.
Proof.
  unfold is_segment. rewrite andb_true_iff, !negb_true_iff, String.eqb_neq. reflexivity.
Qed.

Lemma drop_last_if_append_slash (s : string) :
  Str.drop_last_if "/"%char (s +:+ "/") = s.
Proof.
  induction s as [|a s IH]; [reflexivity|]. rewrite append_cons.
  cbn [Str.drop_last_if]. rewrite IH.
  destruct (s +:+ "/") eqn:E; [|reflexivity].
  destruct s; discriminate.
Qed.

Lemma segment_head (seg : string) :
  is_segment seg = true ->
  exists c rest, seg = String c rest /\ Ascii.eqb c "/"%char = false.
Proof.
  intros [Hne Hns]%is_segment_spec. destruct seg as [|c rest]; [congruence|].
  exists c, rest. split; [reflexivity|].
  cbn [Str.char_in] in Hns. apply orb_false_iff in Hns as [H _].
  now rewrite Ascii.eqb_sym.
Qed.

Lemma strip_slash_dressed (seg part : string) :
  is_segment seg = true -> dressed seg part -> strip_slash part = seg.
Proof.
  intros Hseg Hd. destruct (proj1 (is_segment_spec seg) Hseg) as [_ Hns].
  destruct (segment_head seg Hseg) as (c & rest & -> & Hc). unfold strip_slash.
  destruct Hd as [-> | [-> | [-> | ->]]].
  - rewrite Hc. now apply drop_last_if_segment.
  - rewrite append_cons, append_nil. cbn [Ascii.eqb Bool.eqb].
    now apply drop_last_if_segment.
  - rewrite append_cons, Hc, <- append_cons. apply drop_last_if_append_slash.
  - rewrite append_cons, append_nil. cbn [Ascii.eqb Bool.eqb].
    apply drop_last_if_append_slash.
Qed.

Lemma filter_segments (segs : list string) :
  Forall (fun seg => is_segment seg = true) segs ->
  filter (fun e => e ≠ "") segs = segs.
Proof.
  induction 1 as [|seg segs Hseg _ IH]; [reflexivity|].
  apply is_segment_spec in Hseg as [Hne _].
  now rewrite filter_cons_True, IH.
Qed.

Lemma urlJoin_segments (segs : list string) :
  Forall (fun seg => is_segment seg = true) segs ->
  urlJoin segs = "/" +:+ Str.join "/" segs.
Proof.
  intros Hsegs. unfold urlJoin.
  replace (map strip_slash segs) with segs; [now rewrite filter_segments|].
  induction Hsegs as [|seg segs Hseg _ IH]; [reflexivity|]. cbn [map].
  rewrite <- IH. f_equal. symmetry. apply strip_slash_dressed; [exact Hseg|now left].
Qed.

Lemma urlJoin_stripped (parts segs : list string) :
  map strip_slash parts = segs ->
  Forall (fun seg => is_segment seg = true) segs ->
  urlJoin parts = "/" +:+ Str.join "/" segs.
Proof. intros Hmap Hsegs. unfold urlJoin. now rewrite Hmap, filter_segments. Qed.

Lemma ends_with_append (c : ascii) (a b : string) :
  b <> "" -> ends_with c (a +:+ b) = ends_with c b.
Proof.
  intros Hb. induction a as [|x a IH]; [reflexivity|].
  rewrite append_cons. cbn [ends_with]. rewrite IH.
  destruct (a +:+ b) eqn:E; [|reflexivity].
  destruct a; [rewrite append_nil in E; congruence|discriminate].
Qed.

Lemma ends_with_segment (seg : string) :
  Str.char_in "/"%char seg = false -> ends_with "/"%char seg = false.
Proof.
  induction seg as [|a seg IH]; [reflexivity|]. cbn [Str.char_in].
  intros [Ha Hrest]%orb_false_iff. cbn [ends_with].
  destruct seg; [now rewrite Ascii.eqb_sym|now apply IH].
Qed.

Lemma drop_last_if_id (s : string) :
  ends_with "/"%char s = false -> Str.drop_last_if "/"%char s = s.
Proof.
  induction s as [|a s IH]; [reflexivity|]. cbn [Str.drop_last_if ends_with].
  destruct s as [|b t]; [now intros ->|]. intros E. now rewrite IH.
Qed.

Lemma join_segments_empty (segs : list string) :
  Forall (fun seg => is_segment seg = true) segs ->
  Str.join "/" segs = "" -> segs = [].
Proof.
  intros Hsegs. destruct Hsegs as [|seg segs Hseg _]; [reflexivity|].
  destruct (segment_head seg Hseg) as (c & rest & -> & _).
  cbn [Str.join]. destruct segs; [discriminate|].
  rewrite append_cons. discriminate.
Qed.

Lemma join_segments_end (segs : list string) :
  Forall (fun seg => is_segment seg = true) segs ->
  ends_with "/"%char (Str.join "/" segs) = false.
Proof.
  induction 1 as [|seg segs Hseg Hsegs IH]; [reflexivity|].
  cbn [Str.join]. destruct segs as [|seg' segs].
  - apply ends_with_segment. now apply is_segment_spec in Hseg.
  - rewrite !ends_with_append; [exact IH| |].
    + intros E. now apply (join_segments_empty _ Hsegs) in E.
    + intros E. destruct (Str.join "/" (seg' :: segs)); discriminate.
Qed.

Lemma join_app (sep : string) (a b : list string) :
  a <> [] -> b <> [] ->
  Str.join sep (a ++ b) = Str.join sep a +:+ sep +:+ Str.join sep b.
Proof.
  intros Ha Hb. induction a as [|x a IH]; [congruence|].
  destruct a as [|y a].
  - cbn [app Str.join]. destruct b; [congruence|reflexivity].
  - change ((x :: y :: a) ++ b) with (x :: (y :: a) ++ b).
    change (Str.join sep (x :: (y :: a) ++ b))
      with (x +:+ sep +:+ Str.join sep ((y :: a) ++ b)).
    rewrite IH by discriminate.
    change (Str.join sep (x :: y :: a)) with (x +:+ sep +:+ Str.join sep (y :: a)).
    now rewrite !append_assoc.
Qed.

(** What [urlJoin] makes of a joined url given back to it. *)
Lemma strip_slash_joined (segs : list string) :
  Forall (fun seg => is_segment seg = true) segs ->
  strip_slash (urlJoin segs) = Str.join "/" segs.
Proof.
  intros Hsegs. rewrite urlJoin_segments by exact Hsegs.
  unfold strip_slash. rewrite append_cons, append_nil. cbn [Ascii.eqb Bool.eqb].
  apply drop_last_if_id, join_segments_end, Hsegs.
Qed.

End UrlJoinFacts.

(** X3: One slash in front of a part or behind it makes no difference: for
    parts that are segments, each possibly dressed with one slash at
    either end, [urlJoin] is a slash followed by the segments joined by
    slashes. *)
Theorem urlJoin_joins_dressed_segments (parts segs : list string) :
  Forall2 (fun part seg => is_segment seg = true /\ dressed seg part) parts segs ->
  urlJoin parts = "/" +:+ Str.join "/" segs.
Proof.
  intros H. apply urlJoin_stripped.
  - induction H as [|part seg parts segs [Hseg Hd] _ IH]; [reflexivity|].
    cbn [map]. rewrite IH. f_equal. now apply strip_slash_dressed.
  - induction H as [|part seg parts segs [Hseg _] _ IH]; constructor; assumption.
Qed.

Lemma urlJoin_joins_dressed_segments_witness :
  Forall2 (fun part seg => is_segment seg = true /\ dressed seg part)
    ["/uibuilder/"; "vendor"; "jquery/"] ["uibuilder"; "vendor"; "jquery"]
  /\ urlJoin ["/uibuilder/"; "vendor"; "jquery/"] = "/uibuilder/vendor/jquery".
Proof.
  assert (H : Forall2 (fun part seg => is_segment seg = true /\ dressed seg part)
                ["/uibuilder/"; "vendor"; "jquery/"] ["uibuilder"; "vendor"; "jquery"]).
  { constructor; [split; [reflexivity|do 3 right; reflexivity]|].
    constructor; [split; [reflexivity|left; reflexivity]|].
    constructor; [split; [reflexivity|do 2 right; left; reflexivity]|constructor]. }
  split; [exact H|].
  exact (urlJoin_joins_dressed_segments _ _ H).
Defined.

(** X4: Parts that are empty, a slash or two slashes add nothing to the url,
    wherever they stand; with no part at all the url is a single slash. *)
Theorem urlJoin_ignores_blank_parts (before after : list string) :
  urlJoin (before ++ "" :: after) = urlJoin (before ++ after)
  /\ urlJoin (before ++ "/" :: after) = urlJoin (before ++ after)
  /\ urlJoin (before ++ "//" :: after) = urlJoin (before ++ after)
  /\ urlJoin [] = "/".
Proof.
  unfold urlJoin. rewrite !map_app, !filter_app. cbn [map].
  repeat split; rewrite filter_cons_False by (cbn; intros H; now apply H); reflexivity.
Qed.

(** X5: Joining composes: for parts that are segments, the join of two joined
    urls is the join of all the parts. *)
Theorem urlJoin_of_joined_urls (a b : list string) :
  Forall (fun seg => is_segment seg = true) a ->
  Forall (fun seg => is_segment seg = true) b ->
  urlJoin [urlJoin a; urlJoin b] = urlJoin (a ++ b).
Proof.
  intros Ha Hb.
  rewrite (urlJoin_segments (a ++ b)) by (apply Forall_app; split; assumption).
  unfold urlJoin at 1. cbn [map]. rewrite !strip_slash_joined by assumption.
  destruct a as [|x a], b as [|y b].
  - reflexivity.
  - cbn [app]. rewrite filter_cons_False by (cbn; intros H; now apply H).
    rewrite filter_cons_True; [reflexivity|].
    intros E. now apply (join_segments_empty _ Hb) in E.
  - rewrite app_nil_r. rewrite filter_cons_True.
    + now rewrite filter_cons_False by (cbn; intros H; now apply H).
    + intros E. now apply (join_segments_empty _ Ha) in E.
  - rewrite !filter_cons_True.
    + rewrite join_app by discriminate. reflexivity.
    + intros E. now apply (join_segments_empty _ Hb) in E.
    + intros E. now apply (join_segments_empty _ Ha) in E.
Qed.

Lemma urlJoin_of_joined_urls_witness :
  Forall (fun seg => is_segment seg = true) ["uibuilder"; "vendor"]
  /\ Forall (fun seg => is_segment seg = true) ["jquery"]
  /\ urlJoin [urlJoin ["uibuilder"; "vendor"]; urlJoin ["jquery"]]
     = urlJoin (["uibuilder"; "vendor"] ++ ["jquery"]).
Proof.
  assert (Ha : Forall (fun seg => is_segment seg = true) ["uibuilder"; "vendor"])
    by (repeat constructor).
  assert (Hb : Forall (fun seg => is_segment seg = true) ["jquery"])
    by (repeat constructor).
  split; [exact Ha|]. split; [exact Hb|].
  exact (urlJoin_of_joined_urls _ _ Ha Hb).
Defined.

(** Only one slash is taken from each end of a part: further ones stay in
    the url. *)
Example urlJoin_keeps_further_slashes :
  urlJoin ["//a"; "b//"] = "//a/b/" /\ urlJoin [urlJoin ["b//"]] = "/b".
Proof. vm_compute. split; reflexivity. Qed.

(** ** inputHandler: counting, forwarding, what is kept *)


(** The counter at 2^53 no longer moves. *)
Example inputHandler_counter_at_2_53 :
  js_succ (2 ^ 53 - 1) = (2 ^ 53)%N /\ js_succ (2 ^ 53) = (2 ^ 53)%N.
Proof. vm_compute. split; reflexivity. Qed.

(** X7: A data message without an own property [hasOwnProperty] goes to the
    clients first and then, exactly when [fwdInMessages] is truthy, once
    to the output of the node; what is sent on is the message that was
    emitted and is returned. *)
Theorem inputHandler_forwards_when_asked (msg : Msg) (w : World) :
  msg !! "uibuilderCtrl" = None ->
  msg !! "hasOwnProperty" = None ->
  exists out w' room rest,
    inputHandler msg w = (Ok (Some out), w') /\
    trace w' = trace w ++ Emit room (server (ioChannels (node w))) out :: rest /\
    emitted rest = [] /\
    sent rest = (if truthy (fwdInMessages (node w)) then [VObj out] else []).
Proof.
  intros Hdata H. eexists. eexists. eexists. eexists.
  split; [apply (inputHandler_data_full msg w H Hdata)|].
  split; [reflexivity|].
  destruct (truthy (fwdInMessages (node w))); split; reflexivity.
Qed.

Lemma inputHandler_forwards_when_asked_witness :
  let msg : Msg := {[ "payload" := VNum 1 ]} in
  let w := sample_world "/a" quiet_sockets routes_a_ab_c in
  msg !! "uibuilderCtrl" = None /\
  msg !! "hasOwnProperty" = None /\
  exists out w' room rest,
    inputHandler msg w = (Ok (Some out), w') /\
    trace w' = trace w ++ Emit room (server (ioChannels (node w))) out :: rest /\
    emitted rest = [] /\
    sent rest = (if truthy (fwdInMessages (node w)) then [VObj out] else []).
Proof.
  intros msg w. split; [reflexivity|]. split; [reflexivity|].
  apply (inputHandler_forwards_when_asked msg w); reflexivity.
Defined.

(** X8: [inputHandler] takes nothing from a data message without an own
    property [hasOwnProperty] but [script] and [style]: every other key
    keeps its value, [script] stays when [allowScripts] is [true], [style]
    when [allowStyles] is, and with both the message passes as it came. *)
Theorem inputHandler_keeps_other_keys (msg : Msg) (w : World) :
  msg !! "uibuilderCtrl" = None ->
  msg !! "hasOwnProperty" = None ->
  exists out w',
    inputHandler msg w = (Ok (Some out), w') /\
    (forall key, key <> "script" -> key <> "style" -> out !! key = msg !! key) /\
    (allowScripts (node w) = VBool true -> out !! "script" = msg !! "script") /\
    (allowStyles (node w) = VBool true -> out !! "style" = msg !! "style") /\
    (allowScripts (node w) = VBool true -> allowStyles (node w) = VBool true -> out = msg).
Proof.
  intros Hdata H. eexists. eexists.
  split; [apply (inputHandler_data_full msg w H Hdata)|].
  split; [|split; [|split]].
  - intros key Hs Ht. rewrite passed_on_lookup.
    apply String.eqb_neq in Hs, Ht. now rewrite Hs, Ht.
  - intros Hs. rewrite passed_on_lookup, Hs. reflexivity.
  - intros Hs. rewrite passed_on_lookup, Hs. reflexivity.
  - intros Hs Ht. unfold passed_on. now rewrite Hs, Ht.
Qed.

Lemma inputHandler_keeps_other_keys_witness :
  let msg : Msg := {[ "script" := VStr "x"; "payload" := VNum 1 ]} in
  let w := sample_world "/a" quiet_sockets routes_a_ab_c in
  msg !! "uibuilderCtrl" = None /\
  msg !! "hasOwnProperty" = None /\
  exists out w',
    inputHandler msg w = (Ok (Some out), w') /\
    (forall key, key <> "script" -> key <> "style" -> out !! key = msg !! key) /\
    (allowScripts (node w) = VBool true -> out !! "script" = msg !! "script") /\
    (allowStyles (node w) = VBool true -> out !! "style" = msg !! "style") /\
    (allowScripts (node w) = VBool true -> allowStyles (node w) = VBool true -> out = msg).
Proof.
  intros msg w. split; [reflexivity|]. split; [reflexivity|].
  apply (inputHandler_keeps_other_keys msg w); reflexivity.
Defined.

(** X9: The two permissions are compared with [true] itself: any other value
    of [allowScripts], truthy ones such as 1 or the text "true" included,
    has [script] deleted from a data message without an own property
    [hasOwnProperty], and likewise [allowStyles] and [style]. *)
Theorem inputHandler_strips_unless_exactly_true (msg : Msg) (w : World) :
  msg !! "uibuilderCtrl" = None ->
  msg !! "hasOwnProperty" = None ->
  exists out w',
    inputHandler msg w = (Ok (Some out), w') /\
    (allowScripts (node w) <> VBool true -> out !! "script" = None) /\
    (allowStyles (node w) <> VBool true -> out !! "style" = None).
Proof.
  intros Hdata H. eexists. eexists.
  split; [apply (inputHandler_data_full msg w H Hdata)|].
  split; intros Hs%not_strictly_true_spec; rewrite passed_on_lookup, Hs.
  - reflexivity.
  - change (String.eqb "style" "script") with false.
    change (String.eqb "style" "style") with true. reflexivity.
Qed.

Lemma inputHandler_strips_unless_exactly_true_witness :
  let msg : Msg := {[ "script" := VStr "x"; "style" := VStr "y"; "payload" := VNum 1 ]} in
  let w :=
    set_node (fun n =>
      {| url := url n; rcvMsgCount := rcvMsgCount n;
         allowScripts := VStr "true"; allowStyles := VNum 1;
         fwdInMessages := fwdInMessages n; topic := topic n;
         ioChannels := ioChannels n; ioNamespace := ioNamespace n |})
      (sample_world "/a" quiet_sockets routes_a_ab_c) in
  msg !! "uibuilderCtrl" = None /\
  msg !! "hasOwnProperty" = None /\
  exists out w',
    inputHandler msg w = (Ok (Some out), w') /\
    (allowScripts (node w) <> VBool true -> out !! "script" = None) /\
    (allowStyles (node w) <> VBool true -> out !! "style" = None).
Proof.
  intros msg w. split; [reflexivity|]. split; [reflexivity|].
  apply (inputHandler_strips_unless_exactly_true msg w); reflexivity.
Defined.

(** ** sendControl: what it keeps, and sending again *)

Section SendControlMore.

(** The message [sendControl] leaves, key by key. *)
Lemma sendControl_out_lookup (msg : Msg) (socketId : value) (w : World) (key : string) :
  msg !! "hasOwnProperty" = None ->
  exists out w',
    sendControl msg socketId w = (Ok out, w') /\
    node w' = node w /\ ioNs w' = ioNs w /\ nsps w' = nsps w /\ stack w' = stack w /\
    out !! key =
      if String.eqb key "_socketId" then
        (if truthy socketId then Some socketId else msg !! "_socketId")
      else if String.eqb key "topic" then
        match msg !! "topic" with
        | Some t => Some t
        | None => if String.eqb (topic (node w)) "" then None else Some (VStr (topic (node w)))
        end
      else msg !! key.
Proof.
  intros H.
  pose proof (sendControl_run msg socketId w H) as Hrun. cbn zeta in Hrun.
  eexists. eexists. split; [exact Hrun|]. do 4 (split; [reflexivity|]).
  set (stamped := if truthy socketId then _ else msg).
  assert (Hst : forall k, stamped !! k =
                  if String.eqb k "_socketId"
                  then (if truthy socketId then Some socketId else msg !! "_socketId")
                  else msg !! k).
  { intros k. subst stamped. destruct (String.eqb_spec k "_socketId") as [->|Hk];
      destruct (truthy socketId); rewrite ?lookup_insert_eq, ?lookup_insert_ne by congruence;
      reflexivity. }
  assert (Htopic : stamped !! "topic" = msg !! "topic") by (now rewrite Hst).
  destruct (has_own stamped "topic") eqn:Hown.
  - apply has_own_true in Hown as [t Ht]. cbn [negb andb]. rewrite Hst.
    rewrite <- Htopic, Ht.
    destruct (String.eqb key "_socketId"); [reflexivity|].
    destruct (String.eqb_spec key "topic") as [->|]; [|reflexivity].
    now rewrite <- Ht, Htopic.
  - apply has_own_false in Hown. rewrite <- Htopic, Hown. cbn [negb andb].
    destruct (String.eqb (topic (node w)) "") eqn:Hempty; cbn [negb].
    + rewrite Hst. destruct (String.eqb key "_socketId"); [reflexivity|].
      destruct (String.eqb_spec key "topic") as [->|]; [|reflexivity].
      now rewrite <- Htopic.
    + destruct (String.eqb_spec key "topic") as [->|Hk].
      * now rewrite lookup_insert_eq.
      * rewrite lookup_insert_ne by congruence. rewrite Hst.
        now destruct (String.eqb key "_socketId").
Qed.

End SendControlMore.

(** X10: On a message without an own property [hasOwnProperty],
    [sendControl] changes two keys at most.  [_socketId] becomes the
    argument when that is truthy and is kept otherwise; a [topic] the
    message has is kept, whatever its value; every other key keeps its
    value.  The node, the namespace, the namespace table and the route
    registry are left as they were. *)
Theorem sendControl_keeps_other_keys (msg : Msg) (socketId : value) (w : World) :
  msg !! "hasOwnProperty" = None ->
  exists out w',
    sendControl msg socketId w = (Ok out, w') /\
    (forall key, key <> "_socketId" -> key <> "topic" -> out !! key = msg !! key) /\
    (forall t, msg !! "topic" = Some t -> out !! "topic" = Some t) /\
    (truthy socketId = true -> out !! "_socketId" = Some socketId) /\
    (truthy socketId = false -> out !! "_socketId" = msg !! "_socketId") /\
    node w' = node w /\ ioNs w' = ioNs w /\ nsps w' = nsps w /\ stack w' = stack w.
Proof.
  intros H.
  pose proof (sendControl_run msg socketId w H) as Hrun. cbn zeta in Hrun.
  eexists. eexists. split; [exact Hrun|].
  split; [|split; [|split; [|split; [|repeat split]]]].
  - intros key Hs Ht.
    destruct (sendControl_out_lookup msg socketId w key H)
      as (o & w' & Hrun' & _ & _ & _ & _ & Hl).
    rewrite Hrun in Hrun'. injection Hrun' as <- _. rewrite Hl.
    apply String.eqb_neq in Hs, Ht. now rewrite Hs, Ht.
  - intros t Ht.
    destruct (sendControl_out_lookup msg socketId w "topic" H)
      as (o & w' & Hrun' & _ & _ & _ & _ & Hl).
    rewrite Hrun in Hrun'. injection Hrun' as <- _. rewrite Hl, Ht. reflexivity.
  - intros Hs.
    destruct (sendControl_out_lookup msg socketId w "_socketId" H)
      as (o & w' & Hrun' & _ & _ & _ & _ & Hl).
    rewrite Hrun in Hrun'. injection Hrun' as <- _. rewrite Hl, Hs. reflexivity.
  - intros Hs.
    destruct (sendControl_out_lookup msg socketId w "_socketId" H)
      as (o & w' & Hrun' & _ & _ & _ & _ & Hl).
    rewrite Hrun in Hrun'. injection Hrun' as <- _. rewrite Hl, Hs. reflexivity.
Qed.

Lemma sendControl_keeps_other_keys_witness :
  let msg : Msg := {[ "uibuilderCtrl" := VStr "ready"; "topic" := VNum 0 ]} in
  let w := sample_world "/a" quiet_sockets routes_a_ab_c in
  msg !! "hasOwnProperty" = None /\
  exists out w',
    sendControl msg (VStr "/a#c1") w = (Ok out, w') /\
    (forall key, key <> "_socketId" -> key <> "topic" -> out !! key = msg !! key) /\
    (forall t, msg !! "topic" = Some t -> out !! "topic" = Some t) /\
    (truthy (VStr "/a#c1") = true -> out !! "_socketId" = Some (VStr "/a#c1")) /\
    (truthy (VStr "/a#c1") = false -> out !! "_socketId" = msg !! "_socketId") /\
    node w' = node w /\ ioNs w' = ioNs w /\ nsps w' = nsps w /\ stack w' = stack w.
Proof.
  intros msg w. split; [reflexivity|].
  apply (sendControl_keeps_other_keys msg (VStr "/a#c1") w). reflexivity.
Defined.

(** X11: Sending the message [sendControl] returns once more, with the same
    argument or with none, changes it no further and goes to the same
    target: the second call emits and outputs the very message the first
    one returned.  This is for a message without an own property
    [hasOwnProperty], on which the calls return. *)
Theorem sendControl_again_is_stable (msg : Msg) (socketId socketId' : value) (w : World) :
  msg !! "hasOwnProperty" = None ->
  socketId' = socketId \/ truthy socketId' = false ->
  exists out w1 room first,
    sendControl msg socketId w = (Ok out, w1) /\
    emitted (drop (length (trace w)) (trace w1))
      = [(room, control (ioChannels (node w)), first)] /\
    exists w2,
      sendControl out socketId' w1 = (Ok out, w2) /\
      emitted (drop (length (trace w1)) (trace w2))
        = [(room, control (ioChannels (node w)), out)] /\
      sent (drop (length (trace w1)) (trace w2)) = [VArr [VNull; VObj out]].
Proof.
  intros H Hagain.
  pose proof (sendControl_run msg socketId w H) as Hrun. cbn zeta in Hrun.
  set (stamped := if truthy socketId then _ else msg) in *.
  set (out := if negb (has_own stamped "topic") && _ then _ else stamped) in *.
  set (w1 := add_trace _ w) in *.
  assert (Hid : prop out "_socketId" = prop stamped "_socketId").
  { unfold prop. subst out.
    destruct (negb (has_own stamped "topic") && _); [|reflexivity].
    now rewrite lookup_insert_ne. }
  assert (Hplain : out !! "hasOwnProperty" = None).
  { subst out. destruct (negb (has_own stamped "topic") && _);
      rewrite ?lookup_insert_ne by discriminate;
      subst stamped; now rewrite stamped_lookup. }
  assert (Hstamp : (if truthy socketId' then <["_socketId" := socketId']> out else out) = out).
  { destruct (truthy socketId') eqn:Ht; [|reflexivity].
    destruct Hagain as [->|]; [|congruence].
    apply insert_id. subst out.
    assert (Hs : stamped !! "_socketId" = Some socketId)
      by (subst stamped; rewrite Ht; apply lookup_insert_eq).
    destruct (negb (has_own stamped "topic") && _); [|exact Hs].
    now rewrite lookup_insert_ne. }
  assert (Htopic : negb (has_own out "topic")
                   && negb (String.eqb (topic (node w1)) "") = false).
  { change (node w1) with (node w). subst out.
    destruct (has_own stamped "topic") eqn:Hown; cbn [negb andb].
    - now rewrite Hown.
    - destruct (String.eqb (topic (node w)) ""); cbn [negb]; [apply andb_false_r|].
      apply andb_false_iff. left. apply negb_false_iff, has_own_true.
      rewrite lookup_insert_eq. eauto. }
  exists out, w1. eexists. eexists. split; [exact Hrun|]. split.
  { subst w1. unfold add_trace, set_trace. cbn [trace].
    rewrite drop_app_length. reflexivity. }
  pose proof (sendControl_run out socketId' w1 Hplain) as Hrun2. cbn zeta in Hrun2.
  rewrite Hstamp, Htopic in Hrun2. change (node w1) with (node w) in Hrun2.
  eexists. split; [exact Hrun2|].
  unfold add_trace, set_trace. cbn [trace]. rewrite drop_app_length.
  split; [|reflexivity]. cbn [emitted]. now rewrite Hid.
Qed.

Lemma sendControl_again_is_stable_witness :
  let msg : Msg := {[ "uibuilderCtrl" := VStr "ready" ]} in
  let w := sample_world "/a" quiet_sockets routes_a_ab_c in
  msg !! "hasOwnProperty" = None /\
  (VUndefined = VStr "/a#c1" \/ truthy VUndefined = false) /\
  exists out w1 room first,
    sendControl msg (VStr "/a#c1") w = (Ok out, w1) /\
    emitted (drop (length (trace w)) (trace w1))
      = [(room, control (ioChannels (node w)), first)] /\
    exists w2,
      sendControl out VUndefined w1 = (Ok out, w2) /\
      emitted (drop (length (trace w1)) (trace w2))
        = [(room, control (ioChannels (node w)), out)] /\
      sent (drop (length (trace w1)) (trace w2)) = [VArr [VNull; VObj out]].
Proof.
  intros msg w.
  assert (H : VUndefined = VStr "/a#c1" \/ truthy VUndefined = false) by (right; reflexivity).
  split; [reflexivity|]. split; [exact H|].
  exact (sendControl_again_is_stable msg (VStr "/a#c1") VUndefined w eq_refl H).
Defined.

(** X25: On a message without an own property [hasOwnProperty], every call
    of [sendControl] returns and makes exactly one output of the node, the
    pair [[null, msg]] for the second output; [msg] gets the node's topic
    exactly when it had no [topic] key and the node's topic is not
    empty. *)
Theorem sendControl_mirrors_plain_message (msg : Msg) (socketId : value) (w : World) :
  msg !! "hasOwnProperty" = None ->
  exists out w' d,
    sendControl msg socketId w = (Ok out, w') /\
    trace w' = trace w ++ d /\
    sent d = [VArr [VNull; VObj out]] /\
    let stamped := if truthy socketId then <["_socketId" := socketId]> msg else msg in
    (msg !! "topic" = None /\ topic (node w) <> "" /\
       out = <["topic" := VStr (topic (node w))]> stamped)
    \/ (~ (msg !! "topic" = None /\ topic (node w) <> "") /\ out = stamped).
Proof.
  intros H.
  pose proof (sendControl_run msg socketId w H) as Hrun. cbn zeta in Hrun.
  eexists. eexists. eexists.
  split; [exact Hrun|]. split; [reflexivity|]. split; [reflexivity|].
  cbn zeta.
  set (stamped := if truthy socketId then _ else msg).
  assert (Htopic : stamped !! "topic" = msg !! "topic")
    by (subst stamped; now rewrite stamped_lookup).
  destruct (has_own stamped "topic") eqn:Hown.
  - right. apply has_own_true in Hown. rewrite Htopic in Hown.
    split; [|reflexivity]. intros [Hnone _]. rewrite Hnone in Hown. now destruct Hown.
  - apply has_own_false in Hown. rewrite Htopic in Hown.
    destruct (String.eqb_spec (topic (node w)) "") as [Hempty|Hfull]; cbn [negb andb].
    + right. split; [|reflexivity]. intros (_ & Hne). contradiction.
    + left. repeat split; assumption.
Qed.

Lemma sendControl_mirrors_plain_message_witness :
  let w := sample_world "/a" quiet_sockets routes_a_ab_c in
  shutdown !! "hasOwnProperty" = None /\
  exists out w' d,
    sendControl shutdown VUndefined w = (Ok out, w') /\
    trace w' = trace w ++ d /\
    sent d = [VArr [VNull; VObj out]] /\
    let stamped := if truthy VUndefined then <["_socketId" := VUndefined]> shutdown else shutdown in
    (shutdown !! "topic" = None /\ topic (node w) <> "" /\
       out = <["topic" := VStr (topic (node w))]> stamped)
    \/ (~ (shutdown !! "topic" = None /\ topic (node w) <> "") /\ out = stamped).
Proof.
  intros w. split; [reflexivity|].
  apply (sendControl_mirrors_plain_message shutdown VUndefined w). reflexivity.
Defined.

(** ** escapeRegExp: nothing is lost *)

(** The text an escaped text stands for: a backslash is dropped and the
    character after it taken as it is. *)
Fixpoint unescape (s : string) : string :=
  match s with
  | "" => ""
  | String c s' =>
      if Ascii.eqb c "\"%char then
        match s' with
        | String d s'' => String d (unescape s'')
        | "" => ""
        end
      else String c (unescape s')
  end.

(** No character of [s] is in the class of [escapeRegExp]. *)
Fixpoint plain (s : string) : bool :=
  match s with
  | "" => true
  | String c s' => negb (escaped_character c) && plain s'
  end.

Section EscapeFacts.

Import RegExp.

Lemma unescape_escaped_character (c : ascii) (rest : string) :
  unescape (if escaped_character c then String "\"%char (String c rest) else String c rest)
  = String c (unescape rest).
Proof. destruct c as [[] [] [] [] [] [] [] []]; reflexivity. Qed.

Lemma unescape_escapeRegExp (s : string) : unescape (escapeRegExp s) = s.
Proof.
  induction s as [|c s IH]; [reflexivity|]. cbn [escapeRegExp].
  rewrite unescape_escaped_character. now rewrite IH.
Qed.

Lemma length_escapeRegExp (s : string) :
  String.length s <= String.length (escapeRegExp s) <= 2 * String.length s.
Proof.
  induction s as [|c s IH]; [cbn; lia|]. cbn [escapeRegExp].
  destruct (escaped_character c); cbn [String.length]; lia.
Qed.

Lemma escapeRegExp_plain (s : string) : escapeRegExp s = s <-> plain s = true.
Proof.
  induction s as [|c s IH]; [easy|]. cbn [escapeRegExp plain].
  destruct (escaped_character c); cbn [negb andb].
  - split; [|discriminate]. intros H. apply (f_equal String.length) in H.
    cbn [String.length] in H. pose proof (length_escapeRegExp s). lia.
  - rewrite <- IH. split; [now intros [= H]|now intros ->].
Qed.

Lemma RegExp_escaped (s : string) : RegExp (escapeRegExp s) = Some (literal s).
Proof.
  unfold RegExp. rewrite <- (append_empty_r (escapeRegExp s)), parse_escapeRegExp.
  cbn [parse]. now rewrite app_nil_r, rev_involutive.
Qed.

(** A search for literal terms succeeds exactly on a text that holds the
    literal text. *)
Lemma exec_from_literal (s t : string) (pos : nat) :
  exec_from (literal s) pos t <> None <-> exists a b, t = a +:+ s +:+ b.
Proof.
  revert pos. induction t as [|c t IH]; intros pos.
  - cbn [exec_from]. rewrite <- (app_nil_r (literal s)), match_terms_literal.
    destruct (Str.strip_prefix s "") as [r|] eqn:E.
    + split; [|discriminate]. intros _. exists "", r.
      now apply strip_prefix_Some in E.
    + split; [congruence|]. intros (a & b & H).
      destruct a; [|discriminate]. rewrite append_nil in H.
      apply strip_prefix_Some in H. congruence.
  - cbn [exec_from]. rewrite <- (app_nil_r (literal s)), match_terms_literal.
    destruct (Str.strip_prefix s (String c t)) as [r|] eqn:E.
    + split; [|discriminate]. intros _. exists "", r.
      now apply strip_prefix_Some in E.
    + rewrite app_nil_r, IH. split.
      * intros (a & b & ->). exists (String c a), b. now rewrite append_cons.
      * intros (a & b & H). destruct a as [|x a].
        -- rewrite append_nil in H.
           apply strip_prefix_Some in H. congruence.
        -- rewrite append_cons in H. injection H as _ ->. eauto.
Qed.

End EscapeFacts.

(** X19: [escapeRegExp] loses nothing: dropping the backslashes it adds gives
    the text back, so two different texts never have the same escaped
    form. *)
Theorem escapeRegExp_is_reversible (s t : string) :
  unescape (escapeRegExp s) = s
  /\ (escapeRegExp s = escapeRegExp t -> s = t).
Proof.
  split; [apply unescape_escapeRegExp|].
  intros H. rewrite <- (unescape_escapeRegExp s), <- (unescape_escapeRegExp t).
  now rewrite H.
Qed.

(** X20: [escapeRegExp] at most doubles the length of a text, and it leaves a
    text unchanged exactly when the text holds none of the characters of
    its class. *)
Theorem escapeRegExp_changes_only_special_text (s : string) :
  String.length s <= String.length (escapeRegExp s) <= 2 * String.length s
  /\ (escapeRegExp s = s <-> plain s = true).
Proof. split; [apply length_escapeRegExp|apply escapeRegExp_plain]. Qed.

(** X21: Without anchors, the pattern [escapeRegExp(s)] is a valid one and it
    is found exactly in the texts that hold [s] as it is written. *)
Theorem escapeRegExp_finds_the_text_itself (s t : string) :
  exists re,
    RegExp.RegExp (escapeRegExp s) = Some re /\
    (RegExp.test re t = true <-> exists before after, t = before +:+ s +:+ after).
Proof.
  exists (literal s). split; [apply RegExp_escaped|].
  unfold RegExp.test, RegExp.exec. rewrite <- exec_from_literal with (pos := 0).
  destruct (RegExp.exec_from (literal s) 0 t); split; congruence.
Qed.

Example escapeRegExp_search_samples :
  RegExp.test (default [] (RegExp.RegExp (escapeRegExp "a.b"))) "xa.by" = true
  /\ RegExp.test (default [] (RegExp.RegExp (escapeRegExp "a.b"))) "xaaby" = false
  /\ RegExp.test (default [] (RegExp.RegExp "a.b")) "xaaby" = true
  /\ unescape (escapeRegExp "1+1=2 (a|b)\c") = "1+1=2 (a|b)\c".
Proof. vm_compute. repeat split. Qed.

(** ** getProps: the order of the paths, the default, the shapes of props *)

Section GetPropsMore.

Variable getMessageProperty : value -> value -> Outcome value.

(** The lookup of [p] in [myObj] finds nothing: it throws or gives
    [undefined]. *)
Definition misses (myObj p : value) : Prop :=
  (exists e, getMessageProperty myObj p = Throw e)
  \/ getMessageProperty myObj p = Ok VUndefined.

Lemma first_defined_miss (myObj p : value) (rest : list value) :
  misses myObj p ->
  first_defined getMessageProperty myObj (p :: rest)
  = first_defined getMessageProperty myObj rest.
Proof. intros [[e H]|H]; cbn [first_defined]; now rewrite H. Qed.

Lemma first_defined_app_miss (myObj p : value) (before after : list value) :
  misses myObj p ->
  first_defined getMessageProperty myObj (before ++ p :: after)
  = first_defined getMessageProperty myObj (before ++ after).
Proof.
  intros Hp. induction before as [|q before IH]; [now apply first_defined_miss|].
  cbn [app first_defined]. rewrite IH. reflexivity.
Qed.

Lemma first_defined_hit (myObj p v : value) (before after : list value) :
  Forall (misses myObj) before ->
  getMessageProperty myObj p = Ok v -> v <> VUndefined ->
  first_defined getMessageProperty myObj (before ++ p :: after) = Some v.
Proof.
  intros Hbefore Hp Hv. induction Hbefore as [|q before Hq _ IH].
  - cbn [app first_defined]. rewrite Hp. now destruct v.
  - cbn [app]. now rewrite first_defined_miss.
Qed.

(** X22: A path whose lookup throws or gives [undefined] can be left out of
    the list, wherever it stands: the other paths are tried all the
    same. *)
Theorem getProps_skips_missing_paths (myObj p defaultAnswer : value)
    (before after : list value) :
  misses myObj p ->
  getProps getMessageProperty myObj (VArr (before ++ p :: after)) defaultAnswer
  = getProps getMessageProperty myObj (VArr (before ++ after)) defaultAnswer.
Proof.
  intros Hp. rewrite !getProps_first_truthy. cbn zeta.
  now rewrite first_defined_app_miss.
Qed.

(** X23: The first path that is found decides alone: when it holds a truthy
    value that value is returned, and when it holds a falsy one the
    default is, whatever the paths after it hold. *)
Theorem getProps_first_found_decides (myObj p v defaultAnswer : value)
    (before after : list value) :
  Forall (misses myObj) before ->
  getMessageProperty myObj p = Ok v -> v <> VUndefined ->
  getProps getMessageProperty myObj (VArr (before ++ p :: after)) defaultAnswer
  = if truthy v then v
    else match defaultAnswer with
         | VUndefined => VArr []
         | _ => defaultAnswer
         end.
Proof.
  intros Hbefore Hp Hv. rewrite getProps_first_truthy. cbn zeta.
  now rewrite (first_defined_hit myObj p v before after Hbefore Hp Hv).
Qed.

(** X24: For a list of paths, or a single path given as a string, [getProps]
    never returns [undefined]: it returns a truthy value that was found,
    or the default, and the empty array when the default is [undefined]. *)
Theorem getProps_is_never_undefined (myObj defaultAnswer : value) (props : list value)
    (p : string) :
  getProps getMessageProperty myObj (VArr props) defaultAnswer <> VUndefined
  /\ getProps getMessageProperty myObj (VStr p) defaultAnswer
     = getProps getMessageProperty myObj (VArr [VStr p]) defaultAnswer
  /\ (truthy (getProps getMessageProperty myObj (VArr props) defaultAnswer) = true
      \/ getProps getMessageProperty myObj (VArr props) defaultAnswer
         = match defaultAnswer with
           | VUndefined => VArr []
           | _ => defaultAnswer
           end).
Proof.
  split; [|split; [reflexivity|]]; rewrite getProps_first_truthy; cbn zeta.
  - destruct (first_defined getMessageProperty myObj props) as [v|].
    + destruct (truthy v) eqn:Hv; [intros ->; discriminate|].
      destruct defaultAnswer; discriminate.
    + destruct defaultAnswer; discriminate.
  - destruct (first_defined getMessageProperty myObj props) as [v|]; [|now right].
    destruct (truthy v) eqn:Hv; [now left|now right].
Qed.

(** When [props] is neither a string nor an array, [getProps] returns
    [undefined] and not the default. *)
Theorem getProps_of_no_list (myObj props defaultAnswer : value) :
  typeof props <> "string" ->
  (forall items, props <> VArr items) ->
  getProps getMessageProperty myObj props defaultAnswer = VUndefined.
Proof.
  intros Hstr Harr. unfold getProps.
  destruct props; try reflexivity; cbn in Hstr; try congruence.
  now destruct (Harr items).
Qed.

End GetPropsMore.

Lemma getProps_skips_missing_paths_witness :
  let myObj := VObj {[ "b" := VStr "found" ]} in
  misses own_property myObj (VStr "a") /\
  getProps own_property myObj (VArr ([] ++ VStr "a" :: [VStr "b"])) (VStr "none")
  = getProps own_property myObj (VArr ([] ++ [VStr "b"])) (VStr "none").
Proof.
  intros myObj.
  assert (H : misses own_property myObj (VStr "a")) by (right; reflexivity).
  split; [exact H|].
  exact (getProps_skips_missing_paths own_property myObj (VStr "a") (VStr "none") [] [VStr "b"] H).
Defined.

Lemma getProps_first_found_decides_witness :
  let myObj := VObj {[ "a" := VNum 0; "b" := VNum 5 ]} in
  Forall (misses own_property myObj) [VStr "zz"] /\
  own_property myObj (VStr "a") = Ok (VNum 0) /\
  VNum 0 <> VUndefined /\
  getProps own_property myObj (VArr ([VStr "zz"] ++ VStr "a" :: [VStr "b"])) (VStr "none")
  = VStr "none".
Proof.
  intros myObj.
  assert (H : Forall (misses own_property myObj) [VStr "zz"])
    by (constructor; [right; reflexivity|constructor]).
  split; [exact H|]. split; [reflexivity|]. split; [discriminate|].
  exact (getProps_first_found_decides own_property myObj (VStr "a") (VNum 0) (VStr "none")
           [VStr "zz"] [VStr "b"] H eq_refl ltac:(discriminate)).
Defined.


(** ** escapeRegExp and urlJoin together: the pattern for a base path *)

(** X26: The text ['^' + escapeRegExp('/^\\' + urlJoin(url)) + '.*$'] is,
    for every [url], a valid regular expression, and replacing its match
    in a text by the empty text leaves nothing exactly when the text is
    empty or starts with [/^\] and the joined url and has no line break
    after that. *)
Theorem url_pattern_takes_prefix (url s : string) :
  exists urlRe,
    RegExp.RegExp ("^" +:+ escapeRegExp ("/^\" +:+ urlJoin [url]) +:+ ".*$") = Some urlRe /\
    (RegExp.replace s urlRe "" = "" <->
       s = "" \/
       exists rest, s = ("/^\" +:+ urlJoin [url]) +:+ rest /\ single_line rest = true).
Proof.
  eexists. split; [apply RegExp_escaped_prefix|].
  rewrite <- String.eqb_eq, replace_prefix_empty.
  destruct (Str.strip_prefix ("/^\" +:+ urlJoin [url]) s) as [rest|] eqn:E.
  - apply strip_prefix_Some in E. subst s. split.
    + intros H. right. now exists rest.
    + intros [H|(rest' & H & Hline)].
      * apply (f_equal String.length) in H. rewrite length_append in H.
        rewrite append_cons in H. cbn [String.length] in H. lia.
      * assert (rest' = rest) as ->; [|exact Hline].
        pose proof (strip_prefix_append ("/^\" +:+ urlJoin [url]) rest) as H1.
        rewrite H in H1 at 1. rewrite strip_prefix_append in H1. congruence.
  - rewrite String.eqb_eq. split; [now left|].
    intros [H|(rest & -> & _)]; [exact H|].
    rewrite strip_prefix_append in E. discriminate.
Qed.

(** The pattern for [/a] and the texts the routing framework renders for
    handlers mounted on [/a], [/a/b], [/ab] and [/c]. *)
Example url_pattern_samples :
  let urlRe := default [] (RegExp.RegExp ("^" +:+ escapeRegExp ("/^\" +:+ urlJoin ["/a"]) +:+ ".*$")) in
  RegExp.replace "/^\/a\/?(?=\/|$)/i" urlRe "" = "" /\
  RegExp.replace "/^\/a\/b\/?(?=\/|$)/i" urlRe "" = "" /\
  RegExp.replace "/^\/ab\/?(?=\/|$)/i" urlRe "" = "" /\
  RegExp.replace "/^\/c\/?(?=\/|$)/i" urlRe "" = "/^\/c\/?(?=\/|$)/i".
Proof. vm_compute. repeat split. Qed.

(** ** The two loops over the route registry *)

(** X27: The loop that collects the indices of the entries whose pattern
    text the regular expression empties, followed by the loop that splices
    them out from the last index down, removes exactly those entries and
    keeps all the others in their order, for every regular expression and
    every registry. *)
Theorem splice_loops_remove_the_collected_entries (urlRe : RegExp.regex) (routes : list Layer) :
  splice_each (rev (removePath_from urlRe 0 routes)) routes
  = List.filter
      (fun r => negb (String.eqb (RegExp.replace (regexp_toString r) urlRe "") ""))
      routes.
Proof. exact (splice_each_removePath urlRe [] routes). Qed.

(** Spliced from the first index up, as the source says an earlier version
    did, the second removal hits the wrong entry. *)
Example splice_in_ascending_order :
  let urlRe := default [] (RegExp.RegExp ("^" +:+ escapeRegExp ("/^\" +:+ urlJoin ["/a"]) +:+ ".*$")) in
  removePath_from urlRe 0 routes_a_ab_c = [0; 1]%nat /\
  splice_each [1; 0]%nat routes_a_ab_c = [entry "/^\/c\/?(?=\/|$)/i" "/c"] /\
  splice_each [0; 1]%nat routes_a_ab_c = [entry "/^\/a\/b\/?(?=\/|$)/i" "/a/b"].
Proof. vm_compute. repeat split. Qed.
